(** * Air Quality GeoAPI: the query service of [app/main.py]

    A shallow embedding of the four FastAPI handlers of [src/app/main.py]
    ([list_measurements], [measurements_timeseries], [list_stations],
    [list_stations_wkt]) together with the part of PostgreSQL they talk to.

    - The database is two tables, lists of typed rows, in heap order.  The
      columns [station_id], [pollutant] and [ts] are never NULL, as the
      response models require of them; every other column may be.
    - A handler is a computation over an environment (clock and datastore)
      that logs every statement it hands to [cur.execute] and ends in a
      response or an HTTP error.
    - A statement carries the text the handler builds (the f-string of the
      source) and the query plan that gives the text its meaning; the engine
      evaluates plans.
    - The engine reads a table in heap order, sorts stably, and emits the
      rows of a join and the groups of a GROUP BY in the order of arrival.
      PostgreSQL promises none of these orders: the heap order of a table
      stands for the order in which the engine happens to read the rows for
      one statement, and the properties that compare the answers of two
      statements are stated for datastores that hold the same rows, with
      the ties that would leave an order open excluded. *)

From Stdlib Require Import ZArith List String Ascii Bool Lia.
From Stdlib Require Import Permutation Sorted OrderedTypeEx DecimalString.
Import ListNotations.

Open Scope Z_scope.
Open Scope string_scope.
Open Scope list_scope.

Set Implicit Arguments.

(** ** Values the handlers never compute on

    Numeric columns ([value], [lat], [lon]) come back from the driver as
    Python numbers and are only copied into responses, compared by GROUP BY
    and printed by an f-string.  Timestamps are instants, counted in
    microseconds (the resolution of [datetime] and of [timestamptz]); the
    handlers subtract a [timedelta] from one and otherwise print them. *)

Class Runtime : Type := {
  num : Type;
  (** equality of two numbers as GROUP BY sees it *)
  num_eqb : num -> num -> bool;
  num_eqb_spec : forall x y, num_eqb x y = true <-> x = y;
  (** [f"{x}"] for a number *)
  num_str : num -> string;
  (** [datetime.isoformat()] *)
  isoformat : Z -> string;
  (** the text PostgreSQL puts for a timestamp inside a JSON object *)
  json_timestamp : Z -> string
}.

(** The line feed of the triple-quoted strings. *)
Definition nl : string := String (ascii_of_nat 10) EmptyString.

(** [timedelta(hours=h)] in microseconds.  Python raises OverflowError when
    [now - timedelta(hours=h)] leaves the range of [datetime]; for the hours
    the route lets through, 1 to 168, and the instants a clock shows, it
    does not, and instants are integers here. *)
Definition timedelta_hours (h : Z) : Z := h * 3600000000.

Section Engine.

Context {RT : Runtime}.

(** ** The two tables (spec section 6, "Persisted state") *)

Record MeasurementRow : Type := {
  m_station_id : string;
  m_pollutant : string;
  m_value : option num;
  m_unit : option string;
  m_city : option string;
  m_location_name : option string;
  m_lat : option num;
  m_lon : option num;
  m_country : option string;
  m_ts : Z;
  m_source : option string
}.

Record StationRow : Type := {
  s_station_id : string;
  s_source : option string;
  s_country : option string;
  s_city : option string;
  s_location_name : option string;
  s_lat : option num;
  s_lon : option num
}.

Record Database : Type := {
  measurements : list MeasurementRow;
  stations : list StationRow
}.

(** ** Python values bound to statement parameters, and SQL values *)

Inductive Value : Type :=
| VNull
| VStr (s : string)
| VInt (z : Z)
| VNum (x : num)
| VTime (t : Z).

Definition of_text (o : option string) : Value :=
  match o with Some s => VStr s | None => VNull end.

Definition of_num (o : option num) : Value :=
  match o with Some x => VNum x | None => VNull end.

(** The [params] dict: insertion ordered, one binding per key. *)
Definition Params : Type := list (string * Value).

Fixpoint dict_get (k : string) (d : Params) : option Value :=
  match d with
  | [] => None
  | (k', v) :: d' => if String.eqb k' k then Some v else dict_get k d'
  end.

(** [d[k] = v] *)
Fixpoint dict_set (k : string) (v : Value) (d : Params) : Params :=
  match d with
  | [] => [(k, v)]
  | (k', v') :: d' =>
      if String.eqb k' k then (k', v) :: d' else (k', v') :: dict_set k v d'
  end.

(** [d.update(other)] *)
Definition dict_update (d other : Params) : Params :=
  fold_left (fun acc kv => dict_set (fst kv) (snd kv) acc) other d.

(** ** Conditions of a WHERE clause

    Every condition the handlers write compares a column with a named
    placeholder or tests a column for NULL. *)

Inductive Cond : Type :=
| ColEq (col param : string)     (* col = %(param)s *)
| ColGe (col param : string)     (* col >= %(param)s *)
| IsNotNull (col : string).      (* col IS NOT NULL *)

Definition cond_text (c : Cond) : string :=
  match c with
  | ColEq col p => (col ++ " = %(" ++ p ++ ")s")%string
  | ColGe col p => (col ++ " >= %(" ++ p ++ ")s")%string
  | IsNotNull col => (col ++ " IS NOT NULL")%string
  end.

(** [f"WHERE {' AND '.join(filters)}" if filters else ""] *)
Definition where_text (filters : list Cond) : string :=
  match filters with
  | [] => ""
  | _ => ("WHERE " ++ String.concat " AND " (map cond_text filters))%string
  end.

(** SQL comparison is three valued; WHERE keeps a row when the condition is
    true, so [None] (unknown: a NULL operand) drops the row.  The handlers
    compare text with text and instants with instants; other pairs are
    rejected by PostgreSQL when it types the statement and no handler writes
    one, they are unknown here. *)
Definition sql_eq (a b : Value) : option bool :=
  match a, b with
  | VStr x, VStr y => Some (String.eqb x y)
  | VInt x, VInt y => Some (Z.eqb x y)
  | VTime x, VTime y => Some (Z.eqb x y)
  | _, _ => None
  end.

Definition sql_ge (a b : Value) : option bool :=
  match a, b with
  | VInt x, VInt y => Some (Z.leb y x)
  | VTime x, VTime y => Some (Z.leb y x)
  | _, _ => None
  end.

Definition is_true (o : option bool) : bool :=
  match o with Some true => true | _ => false end.

Definition param (params : Params) (p : string) : Value :=
  match dict_get p params with Some v => v | None => VNull end.

Definition eval_cond (col : string -> Value) (params : Params) (c : Cond) : bool :=
  match c with
  | ColEq c p => is_true (sql_eq (col c) (param params p))
  | ColGe c p => is_true (sql_ge (col c) (param params p))
  | IsNotNull c => match col c with VNull => false | _ => true end
  end.

Definition eval_where (col : string -> Value) (params : Params)
    (filters : list Cond) : bool :=
  forallb (eval_cond col params) filters.

(** Column of a [measurements] row, by name, bare or under the alias [m]. *)
Definition measurement_col (r : MeasurementRow) (c : string) : Value :=
  if (c =? "station_id") || (c =? "m.station_id") then VStr (m_station_id r)
  else if (c =? "pollutant") || (c =? "m.pollutant") then VStr (m_pollutant r)
  else if (c =? "value") || (c =? "m.value") then of_num (m_value r)
  else if (c =? "unit") || (c =? "m.unit") then of_text (m_unit r)
  else if (c =? "city") || (c =? "m.city") then of_text (m_city r)
  else if (c =? "location_name") || (c =? "m.location_name")
       then of_text (m_location_name r)
  else if (c =? "lat") || (c =? "m.lat") then of_num (m_lat r)
  else if (c =? "lon") || (c =? "m.lon") then of_num (m_lon r)
  else if (c =? "country") || (c =? "m.country") then of_text (m_country r)
  else if (c =? "ts") || (c =? "m.ts") then VTime (m_ts r)
  else if (c =? "source") || (c =? "m.source") then of_text (m_source r)
  else VNull.

(** Column of a [stations] row under the alias [s]. *)
Definition station_col (r : StationRow) (c : string) : Value :=
  if c =? "s.station_id" then VStr (s_station_id r)
  else if c =? "s.source" then of_text (s_source r)
  else if c =? "s.country" then of_text (s_country r)
  else if c =? "s.city" then of_text (s_city r)
  else if c =? "s.location_name" then of_text (s_location_name r)
  else if c =? "s.lat" then of_num (s_lat r)
  else if c =? "s.lon" then of_num (s_lon r)
  else VNull.

(** ** ORDER BY, DISTINCT ON, LIMIT and OFFSET *)

Section Sorting.
Variable A : Type.
Variable le : A -> A -> bool.

Fixpoint insert_sorted (x : A) (l : list A) : list A :=
  match l with
  | [] => [x]
  | y :: l' => if le x y then x :: y :: l' else y :: insert_sorted x l'
  end.

(** ORDER BY.  PostgreSQL may return rows that compare equal in any order;
    the model keeps them in the order in which the input has them. *)
Definition order_by (l : list A) : list A :=
  fold_right insert_sorted [] l.

(** [SELECT DISTINCT ON (key)]: of each set of rows with equal key, the
    first one in the order of the input. *)
Variable same : A -> A -> bool.

Fixpoint distinct_on (rows : list A) : list A :=
  match rows with
  | [] => []
  | r :: rest => r :: filter (fun x => negb (same r x)) (distinct_on rest)
  end.
End Sorting.

(** The orders of the ORDER BY clauses.  Text sorts by collation in
    PostgreSQL; the model compares strings byte by byte, as the "C" collation
    does. *)
Definition ts_desc (a b : MeasurementRow) : bool := Z.leb (m_ts b) (m_ts a).
Definition ts_asc (a b : MeasurementRow) : bool := Z.leb (m_ts a) (m_ts b).

(** ORDER BY key, ...: by [key] first, and by the rest among equal keys. *)
Definition then_by (A : Type) (key : A -> string) (rest : A -> A -> bool)
    (a b : A) : bool :=
  match String.compare (key a) (key b) with
  | Lt => true
  | Gt => false
  | Eq => rest a b
  end.

(** ORDER BY station_id, ts DESC *)
Definition station_ts_desc : MeasurementRow -> MeasurementRow -> bool :=
  then_by m_station_id ts_desc.

(** ORDER BY station_id, pollutant, ts DESC *)
Definition station_pollutant_ts_desc
    : MeasurementRow -> MeasurementRow -> bool :=
  then_by m_station_id (then_by m_pollutant ts_desc).

Definition same_station (a b : MeasurementRow) : bool :=
  m_station_id a =? m_station_id b.

Definition same_station_pollutant (a b : MeasurementRow) : bool :=
  (m_station_id a =? m_station_id b) && (m_pollutant a =? m_pollutant b).

(** [LIMIT l OFFSET o]; PostgreSQL refuses a negative bound.  It reads both
    bounds as [bigint] and also refuses one above [bigint_max], which the
    validation of [offset] lets through: the properties of pages are stated
    for bounds up to [bigint_max]. *)
Definition bigint_max : Z := 9223372036854775807.

Definition limit_offset (A : Type) (params : Params) (rows : list A)
    : option (list A) :=
  match param params "limit", param params "offset" with
  | VInt l, VInt o =>
      if Z.leb 0 l && Z.leb 0 o
      then Some (firstn (Z.to_nat l) (skipn (Z.to_nat o) rows))
      else None
  | _, _ => None
  end.


(** ** JSON values: what JSON_AGG returns and what the handlers answer *)

#[local] Unset Elimination Schemes.
Inductive Json : Type :=
| JNull
| JNum (x : num)
| JStr (s : string)
| JArr (items : list Json)
| JObj (fields : list (string * Json)).
#[local] Set Elimination Schemes.

Definition json_text (o : option string) : Json :=
  match o with Some s => JStr s | None => JNull end.

Definition json_num (o : option num) : Json :=
  match o with Some x => JNum x | None => JNull end.

Fixpoint assoc (k : string) (fields : list (string * Json)) : option Json :=
  match fields with
  | [] => None
  | (k', v) :: rest => if String.eqb k' k then Some v else assoc k rest
  end.

(** [m.get(k)] on a decoded JSON object: [None] when the key is absent. *)
Definition json_get (m : Json) (k : string) : Json :=
  match m with
  | JObj fields => match assoc k fields with Some v => v | None => JNull end
  | _ => JNull
  end.

(** ** Result rows, as tuples in the order of each SELECT list *)

Definition MeasurementTuple : Type :=
  (string * string * option num * option string * option string
   * option string * option num * option num * option string * Z
   * option string)%type.

Definition SeriesTuple : Type :=
  (string * string * option num * option string * option string
   * option string * option string * Z * option string)%type.

Definition StationTuple : Type :=
  (string * option string * option string * option string * option string
   * option num * option num * string * option num * option string * Z)%type.

Definition StationWktTuple : Type :=
  (string * option string * option string * option string * option string
   * option num * option num * option (list Json))%type.

(** SELECT station_id, pollutant, value, unit, city, location_name, lat, lon,
    country, ts, source *)
Definition select_measurement (r : MeasurementRow) : MeasurementTuple :=
  (m_station_id r, m_pollutant r, m_value r, m_unit r, m_city r,
   m_location_name r, m_lat r, m_lon r, m_country r, m_ts r, m_source r).

(** SELECT station_id, pollutant, value, unit, country, city, location_name,
    ts, source *)
Definition select_series (r : MeasurementRow) : SeriesTuple :=
  (m_station_id r, m_pollutant r, m_value r, m_unit r, m_country r, m_city r,
   m_location_name r, m_ts r, m_source r).

(** SELECT s.station_id, s.source, s.country, s.city, s.location_name, s.lat,
    s.lon, lm.pollutant, lm.value, lm.unit, lm.ts *)
Definition select_station (sl : StationRow * MeasurementRow) : StationTuple :=
  let (s, lm) := sl in
  (s_station_id s, s_source s, s_country s, s_city s, s_location_name s,
   s_lat s, s_lon s, m_pollutant lm, m_value lm, m_unit lm, m_ts lm).

(** JSON_BUILD_OBJECT('pollutant', lm.pollutant, 'value', lm.value,
    'unit', lm.unit, 'timestamp', lm.ts) *)
Definition json_build_object (lm : MeasurementRow) : Json :=
  JObj [("pollutant", JStr (m_pollutant lm));
        ("value", json_num (m_value lm));
        ("unit", json_text (m_unit lm));
        ("timestamp", JStr (json_timestamp (m_ts lm)))].

(** ** The query plans of the five statements *)

Inductive Plan : Type :=
| PlainSelect (filters : list Cond)
| LatestSelect (filters : list Cond)
| SeriesSelect (filters : list Cond)
| StationsSelect (meas_filters station_filters : list Cond)
| StationsWktSelect (meas_filters station_filters : list Cond).

Definition Row (p : Plan) : Type :=
  match p with
  | PlainSelect _ => MeasurementTuple
  | LatestSelect _ => MeasurementTuple
  | SeriesSelect _ => SeriesTuple
  | StationsSelect _ _ => StationTuple
  | StationsWktSelect _ _ => StationWktTuple
  end.

(** FROM measurements [m] WHERE filters *)
Definition from_measurements (db : Database) (params : Params)
    (filters : list Cond) : list MeasurementRow :=
  filter (fun r => eval_where (measurement_col r) params filters)
         (measurements db).

(** FROM stations s JOIN latest_meas lm ON lm.station_id = s.station_id.
    Rows come out station by station, in the order of the [stations] table;
    PostgreSQL may emit them in any order. *)
Definition join_on (sts : list StationRow) (latest_meas : list MeasurementRow)
    : list (StationRow * MeasurementRow) :=
  flat_map
    (fun s => map (pair s)
       (filter (fun lm => m_station_id lm =? s_station_id s) latest_meas))
    sts.

(** ... WHERE station_filters.  The outer WHERE of both statements names
    columns of [s] only. *)
Definition join_latest (db : Database) (params : Params)
    (station_filters : list Cond) (latest_meas : list MeasurementRow)
    : list (StationRow * MeasurementRow) :=
  filter (fun sl => eval_where (station_col (fst sl)) params station_filters)
    (join_on (stations db) latest_meas).

Definition option_eqb (A : Type) (eqb : A -> A -> bool) (a b : option A) : bool :=
  match a, b with
  | Some x, Some y => eqb x y
  | None, None => true
  | _, _ => false
  end.

(** GROUP BY s.station_id, s.source, s.country, s.city, s.location_name,
    s.lat, s.lon: two NULLs fall in one group. *)
Definition same_group (a b : StationRow) : bool :=
  (s_station_id a =? s_station_id b)
  && option_eqb String.eqb (s_source a) (s_source b)
  && option_eqb String.eqb (s_country a) (s_country b)
  && option_eqb String.eqb (s_city a) (s_city b)
  && option_eqb String.eqb (s_location_name a) (s_location_name b)
  && option_eqb num_eqb (s_lat a) (s_lat b)
  && option_eqb num_eqb (s_lon a) (s_lon b).

Section Grouping.
Variables K V : Type.
Variable same : K -> K -> bool.

(** GROUP BY: one group for each distinct key, in the order in which the
    keys first arrive, holding the rows of that key in the order of
    arrival; PostgreSQL may emit the groups, and aggregate the rows of one,
    in any order. *)
Definition group_by (rows : list (K * V)) : list (K * list V) :=
  map (fun k => (k, map snd (filter (fun kv => same k (fst kv)) rows)))
      (distinct_on same (map fst rows)).
End Grouping.

Definition select_station_wkt (g : StationRow * list MeasurementRow)
    : StationWktTuple :=
  let (s, lms) := g in
  (s_station_id s, s_source s, s_country s, s_city s, s_location_name s,
   s_lat s, s_lon s, Some (map json_build_object lms)).

(** The CTE [latest_meas] of [list_stations]:
    SELECT DISTINCT ON (station_id) ... ORDER BY station_id, ts DESC *)
Definition latest_per_station_id (rows : list MeasurementRow)
    : list MeasurementRow :=
  distinct_on same_station (order_by station_ts_desc rows).

(** The CTE [latest_meas] of [list_stations_wkt], and the outer query of the
    latest-per-station branch of [list_measurements]:
    SELECT DISTINCT ON (station_id, pollutant) ...
    ORDER BY station_id, pollutant, ts DESC *)
Definition latest_per_station_pollutant (rows : list MeasurementRow)
    : list MeasurementRow :=
  distinct_on same_station_pollutant (order_by station_pollutant_ts_desc rows).

(** What PostgreSQL answers to a plan: the rows, or [None] when it refuses the
    statement. *)
Definition run_plan (db : Database) (params : Params) (p : Plan)
    : option (list (Row p)) :=
  match p return option (list (Row p)) with
  | PlainSelect filters =>
      option_map (map select_measurement)
        (limit_offset params
           (order_by ts_desc (from_measurements db params filters)))
  | LatestSelect filters =>
      option_map (map select_measurement)
        (limit_offset params
           (latest_per_station_pollutant (from_measurements db params filters)))
  | SeriesSelect filters =>
      Some (map select_series
              (order_by ts_asc (from_measurements db params filters)))
  | StationsSelect meas_filters station_filters =>
      Some (map select_station
              (join_latest db params station_filters
                 (latest_per_station_id
                    (from_measurements db params meas_filters))))
  | StationsWktSelect meas_filters station_filters =>
      Some (map select_station_wkt
              (group_by same_group
                 (join_latest db params station_filters
                    (latest_per_station_pollutant
                       (from_measurements db params meas_filters)))))
  end.

(** A statement as [cur.execute] receives it. *)
Record Statement : Type := {
  text : string;
  plan : Plan
}.

End Engine.

(** ** The response models of [app/main.py] *)

Module Measurement.
Section Model.
Context {RT : Runtime}.
Record t : Type := {
  station_id : string;
  pollutant : string;
  value : option num;
  unit : option string;
  city : option string;
  location_name : option string;
  lat : option num;
  lon : option num;
  country : option string;
  timestamp : Z;
  source : option string
}.
End Model.
End Measurement.

Module TimePoint.
Section Model.
Context {RT : Runtime}.
Record t : Type := {
  station_id : string;
  pollutant : string;
  value : option num;
  unit : option string;
  country : option string;
  city : option string;
  location_name : option string;
  timestamp : Z;
  source : option string
}.
End Model.
End TimePoint.

(** ** Handlers as computations

    A request runs against the clock and the datastore.  It yields the calls
    it made to [cur.execute], in order, and how it ended. *)

(** One entry of the [detail] list of a 422 answer. *)
Record FieldError : Type := {
  loc : list string;
  type : string
}.

Inductive Outcome (A : Type) : Type :=
| Ok (a : A)
| HTTPException (status_code : Z) (detail : string)
| RequestValidationError (errors : list FieldError)
| ServerError.

Arguments Ok {A} a.
Arguments HTTPException {A} status_code detail.
Arguments RequestValidationError {A} errors.
Arguments ServerError {A}.

Section Handlers.

Context {RT : Runtime}.

Record Env : Type := {
  clock : Z;
  store : Database
}.

Definition Call : Type := (Statement * Params)%type.

Definition Handler (A : Type) : Type := Env -> list Call * Outcome A.

Definition ret (A : Type) (a : A) : Handler A := fun _ => ([], Ok a).

Definition bind (A B : Type) (m : Handler A) (f : A -> Handler B) : Handler B :=
  fun env =>
    let (calls, o) := m env in
    match o with
    | Ok a => let (calls', o') := f a env in (calls ++ calls', o')
    | HTTPException c d => (calls, HTTPException c d)
    | RequestValidationError e => (calls, RequestValidationError e)
    | ServerError => (calls, ServerError)
    end.

(** [raise HTTPException(status_code=..., detail=...)] *)
Definition raise {A : Type} (status_code : Z) (detail : string) : Handler A :=
  fun _ => ([], HTTPException status_code detail).

(** [datetime.now(timezone.utc)] *)
Definition utcnow : Handler Z := fun env => ([], Ok (clock env)).

(** [cur.execute(sql, params); rows = cur.fetchall()], within
    [with _get_conn() as conn, conn.cursor() as cur].  An error of the
    datastore is not caught by any handler. *)
Definition execute (sql : Statement) (params : Params)
    : Handler (list (Row (plan sql))) :=
  fun env =>
    ([(sql, params)],
     match run_plan (store env) params (plan sql) with
     | Some rows => Ok rows
     | None => ServerError
     end).

End Handlers.

Notation "x <- m ;; k" := (bind m (fun x => k))
  (at level 61, m at next level, right associativity).

(** [Query(default, ge=..., le=...)] of an [int] parameter. *)
Module Query.
Record t : Type := {
  default : Z;
  ge : option Z;
  le : option Z
}.
End Query.

Section App.

Context {RT : Runtime}.

(** [if s:] for an [Optional[str]]: [None] and the empty string are false. *)
Definition truthy (s : option string) : bool :=
  match s with
  | Some v => negb (v =? "")
  | None => false
  end.

(** GET /health *)
Definition health : Handler Json :=
  ret (JObj [("status", JStr "ok")]).

(** GET /measurements *)
Definition list_measurements (limit offset : Z)
    (station_id country pollutant : option string)
    (latest_per_station : bool) : Handler (list Measurement.t) :=
  let filters := [] in
  let params := [] in
  let filters :=
    if truthy station_id
    then filters ++ [ColEq "station_id" "station_id"] else filters in
  let params :=
    if truthy station_id
    then dict_set "station_id" (of_text station_id) params else params in
  let filters :=
    if truthy country
    then filters ++ [ColEq "country" "country"] else filters in
  let params :=
    if truthy country
    then dict_set "country" (of_text country) params else params in
  let filters :=
    if truthy pollutant
    then filters ++ [ColEq "pollutant" "pollutant"] else filters in
  let params :=
    if truthy pollutant
    then dict_set "pollutant" (of_text pollutant) params else params in
  let where_clause := where_text filters in
  let sql :=
    if latest_per_station then
      {| text := (nl ++ "            WITH filtered AS (" ++ nl ++ "                SELECT station_id, pollutant, value, unit, city, location_name, lat, lon, country, ts, source" ++ nl ++ "                FROM measurements" ++ nl ++ "                " ++ where_clause ++ nl ++ "            )" ++ nl ++ "            SELECT DISTINCT ON (station_id, pollutant)" ++ nl ++ "                station_id, pollutant, value, unit, city, location_name, lat, lon, country, ts, source" ++ nl ++ "            FROM filtered" ++ nl ++ "            ORDER BY station_id, pollutant, ts DESC" ++ nl ++ "            LIMIT %(limit)s OFFSET %(offset)s;" ++ nl ++ "        ")%string;
         plan := LatestSelect filters |}
    else
      {| text := (nl ++ "            SELECT station_id, pollutant, value, unit, city, location_name, lat, lon, country, ts, source" ++ nl ++ "            FROM measurements" ++ nl ++ "            " ++ where_clause ++ nl ++ "            ORDER BY ts DESC" ++ nl ++ "            LIMIT %(limit)s OFFSET %(offset)s;" ++ nl ++ "        ")%string;
         plan := PlainSelect filters |} in
  let sql :=
    {| text := (nl ++ "        SELECT station_id, pollutant, value, unit, city, location_name, lat, lon, country, ts, source" ++ nl ++ "        FROM measurements" ++ nl ++ "        " ++ where_clause ++ nl ++ "        ORDER BY ts DESC" ++ nl ++ "        LIMIT %(limit)s OFFSET %(offset)s;" ++ nl ++ "    ")%string;
       plan := PlainSelect filters |} in
  let params := dict_update params [("limit", VInt limit); ("offset", VInt offset)] in
  rows <- execute sql params ;;
  let measurements :=
    map (fun row : MeasurementTuple =>
           let '(r0, r1, r2, r3, r4, r5, r6, r7, r8, r9, r10) := row in
           {| Measurement.station_id := r0;
              Measurement.pollutant := r1;
              Measurement.value := r2;
              Measurement.unit := r3;
              Measurement.city := r4;
              Measurement.location_name := r5;
              Measurement.lat := r6;
              Measurement.lon := r7;
              Measurement.country := r8;
              Measurement.timestamp := r9;
              Measurement.source := r10 |})
        rows in
  ret measurements.

(** GET /measurements/timeseries *)
Definition measurements_timeseries (station_id pollutant : string) (hours : Z)
    : Handler (list TimePoint.t) :=
  now <- utcnow ;;
  let since := now - timedelta_hours hours in
  let params :=
    [("station_id", VStr station_id);
     ("pollutant", VStr pollutant);
     ("since", VTime since)] in
  let sql :=
    {| text := (nl ++ "        SELECT station_id," ++ nl ++ "               pollutant," ++ nl ++ "               value," ++ nl ++ "               unit," ++ nl ++ "               country," ++ nl ++ "               city," ++ nl ++ "               location_name," ++ nl ++ "               ts," ++ nl ++ "               source" ++ nl ++ "        FROM measurements" ++ nl ++ "        WHERE station_id = %(station_id)s" ++ nl ++ "          AND pollutant = %(pollutant)s" ++ nl ++ "          AND ts >= %(since)s" ++ nl ++ "        ORDER BY ts;" ++ nl ++ "    ")%string;
       plan := SeriesSelect [ColEq "station_id" "station_id";
                             ColEq "pollutant" "pollutant";
                             ColGe "ts" "since"] |} in
  rows <- execute sql params ;;
  match rows with
  | [] =>
      (* return 404 so the client can distinguish empty data from network errors *)
      raise 404 "No measurements for given station/pollutant"
  | _ =>
      ret (map (fun row : SeriesTuple =>
                  let '(r0, r1, r2, r3, r4, r5, r6, r7, r8) := row in
                  {| TimePoint.station_id := r0;
                     TimePoint.pollutant := r1;
                     TimePoint.value := r2;
                     TimePoint.unit := r3;
                     TimePoint.country := r4;
                     TimePoint.city := r5;
                     TimePoint.location_name := r6;
                     TimePoint.timestamp := r7;
                     TimePoint.source := r8 |})
               rows)
  end.

(** GET /stations *)
Definition list_stations (country pollutant : option string) : Handler Json :=
  let params := [] in
  let meas_filters := [] in
  let meas_filters :=
    if truthy pollutant
    then meas_filters ++ [ColEq "m.pollutant" "pollutant"] else meas_filters in
  let params :=
    if truthy pollutant
    then dict_set "pollutant" (of_text pollutant) params else params in
  let meas_where := where_text meas_filters in
  let station_filters := [IsNotNull "s.lat"; IsNotNull "s.lon"] in
  let station_filters :=
    if truthy country
    then station_filters ++ [ColEq "s.country" "country"] else station_filters in
  let params :=
    if truthy country
    then dict_set "country" (of_text country) params else params in
  let station_where := where_text station_filters in
  let sql :=
    {| text := (nl ++ "        WITH latest_meas AS (" ++ nl ++ "            SELECT DISTINCT ON (station_id)" ++ nl ++ "                station_id, source, pollutant, value, unit, ts" ++ nl ++ "            FROM measurements m" ++ nl ++ "            " ++ meas_where ++ nl ++ "            ORDER BY station_id, ts DESC" ++ nl ++ "        )" ++ nl ++ "        SELECT" ++ nl ++ "            s.station_id," ++ nl ++ "            s.source," ++ nl ++ "            s.country," ++ nl ++ "            s.city," ++ nl ++ "            s.location_name," ++ nl ++ "            s.lat," ++ nl ++ "            s.lon," ++ nl ++ "            lm.pollutant," ++ nl ++ "            lm.value," ++ nl ++ "            lm.unit," ++ nl ++ "            lm.ts" ++ nl ++ "        FROM stations s" ++ nl ++ "        JOIN latest_meas lm ON lm.station_id = s.station_id" ++ nl ++ "        " ++ station_where ++ ";" ++ nl ++ "    ")%string;
       plan := StationsSelect meas_filters station_filters |} in
  rows <- execute sql params ;;
  let features :=
    map (fun row : StationTuple =>
           let '(r0, r1, r2, r3, r4, r5, r6, r7, r8, r9, r10) := row in
           let lon := r6 in
           let lat := r5 in
           JObj [("type", JStr "Feature");
                 ("geometry",
                  JObj [("type", JStr "Point");
                        ("coordinates", JArr [json_num lon; json_num lat])]);
                 ("properties",
                  JObj [("station_id", JStr r0);
                        ("source", json_text r1);
                        ("country", json_text r2);
                        ("city", json_text r3);
                        ("location_name", json_text r4);
                        ("pollutant", JStr r7);
                        ("value", json_num r8);
                        ("unit", json_text r9);
                        (* the column is a timestamp: the isinstance test holds *)
                        ("timestamp", JStr (isoformat r10))])])
        rows in
  ret (JObj [("type", JStr "FeatureCollection"); ("features", JArr features)]).

(** GET /stations_wkt *)
Definition list_stations_wkt (country pollutant : option string)
    : Handler (list Json) :=
  let params := [] in
  let meas_filters := [] in
  let meas_filters :=
    if truthy pollutant
    then meas_filters ++ [ColEq "m.pollutant" "pollutant"] else meas_filters in
  let params :=
    if truthy pollutant
    then dict_set "pollutant" (of_text pollutant) params else params in
  let meas_where := where_text meas_filters in
  let station_filters := [IsNotNull "s.lat"; IsNotNull "s.lon"] in
  let station_filters :=
    if truthy country
    then station_filters ++ [ColEq "s.country" "country"] else station_filters in
  let params :=
    if truthy country
    then dict_set "country" (of_text country) params else params in
  let station_where := where_text station_filters in
  let sql :=
    {| text := (nl ++ "        WITH latest_meas AS (" ++ nl ++ "            SELECT DISTINCT ON (station_id, pollutant)" ++ nl ++ "                station_id, source, pollutant, value, unit, ts, country, city, location_name, lat, lon" ++ nl ++ "            FROM measurements m" ++ nl ++ "            " ++ meas_where ++ nl ++ "            ORDER BY station_id, pollutant, ts DESC" ++ nl ++ "        )" ++ nl ++ "        SELECT" ++ nl ++ "            s.station_id," ++ nl ++ "            s.source," ++ nl ++ "            s.country," ++ nl ++ "            s.city," ++ nl ++ "            s.location_name," ++ nl ++ "            s.lat," ++ nl ++ "            s.lon," ++ nl ++ "            JSON_AGG(" ++ nl ++ "                JSON_BUILD_OBJECT(" ++ nl ++ "                    'pollutant', lm.pollutant," ++ nl ++ "                    'value', lm.value," ++ nl ++ "                    'unit', lm.unit," ++ nl ++ "                    'timestamp', lm.ts" ++ nl ++ "                )" ++ nl ++ "            ) AS measurements" ++ nl ++ "        FROM stations s" ++ nl ++ "        JOIN latest_meas lm ON lm.station_id = s.station_id" ++ nl ++ "        " ++ station_where ++ nl ++ "        GROUP BY s.station_id, s.source, s.country, s.city, s.location_name, s.lat, s.lon;" ++ nl ++ "    ")%string;
       plan := StationsWktSelect meas_filters station_filters |} in
  rows <- execute sql params ;;
  let result :=
    flat_map (fun row : StationWktTuple =>
           let '(r0, r1, r2, r3, r4, r5, r6, r7) := row in
           let lon := r6 in
           let lat := r5 in
           match lon, lat with
           | Some lon, Some lat =>
               (* row[7] or [] *)
               let measurements_raw :=
                 match r7 with Some l => l | None => [] end in
               let measurements :=
                 map (fun m =>
                        (* a decoded JSON value is never a datetime *)
                        let ts := json_get m "timestamp" in
                        JObj [("pollutant", json_get m "pollutant");
                              ("value", json_get m "value");
                              ("unit", json_get m "unit");
                              ("timestamp", ts)])
                     measurements_raw in
               [JObj [("wkt", JStr ("POINT(" ++ num_str lon ++ " " ++ num_str lat ++ ")")%string);
                      ("station_id", JStr r0);
                      ("source", json_text r1);
                      ("country", json_text r2);
                      ("city", json_text r3);
                      ("location_name", json_text r4);
                      ("measurements", JArr measurements)]]
           | _, _ => []   (* continue *)
           end)
        rows in
  ret result.

(** ** The routes: what FastAPI does with the query string before it calls a
    handler

    A parameter that is absent takes its default; one that
    is present is checked against the bounds; all failures are collected into
    one 422 answer, each with the place of the offending parameter. *)

Definition check_int (name : string) (q : Query.t) (raw : option Z)
    : Z + list FieldError :=
  match raw with
  | None => inl (Query.default q)
  | Some v =>
      if match Query.ge q with Some b => Z.ltb v b | None => false end
      then inr [{| loc := ["query"; name]; type := "greater_than_equal" |}]
      else if match Query.le q with Some b => Z.ltb b v | None => false end
      then inr [{| loc := ["query"; name]; type := "less_than_equal" |}]
      else inl v
  end.

Definition check_required (name : string) (raw : option string)
    : string + list FieldError :=
  match raw with
  | Some v => inl v
  | None => inr [{| loc := ["query"; name]; type := "missing" |}]
  end.

Definition errors_of (A : Type) (r : A + list FieldError) : list FieldError :=
  match r with inl _ => [] | inr e => e end.

(** The answer of a request that fails validation: no handler runs. *)
Definition reject (A : Type) (errors : list FieldError) : Handler A :=
  fun _ => ([], RequestValidationError errors).
Arguments reject {A} errors.

(** limit: int = Query(100, ge=1, le=500) *)
Definition limit_query : Query.t :=
  {| Query.default := 100; Query.ge := Some 1; Query.le := Some 500 |}.
(** offset: int = Query(0, ge=0) *)
Definition offset_query : Query.t :=
  {| Query.default := 0; Query.ge := Some 0; Query.le := None |}.
(** hours: int = Query(24, ge=1, le=168) *)
Definition hours_query : Query.t :=
  {| Query.default := 24; Query.ge := Some 1; Query.le := Some 168 |}.

Record MeasurementsQuery : Type := {
  q_limit : option Z;
  q_offset : option Z;
  q_station_id : option string;
  q_country : option string;
  q_pollutant : option string;
  q_latest_per_station : option bool
}.

Definition get_measurements (q : MeasurementsQuery)
    : Handler (list Measurement.t) :=
  match check_int "limit" limit_query (q_limit q),
        check_int "offset" offset_query (q_offset q) with
  | inl limit, inl offset =>
      list_measurements limit offset
        (q_station_id q) (q_country q) (q_pollutant q)
        (match q_latest_per_station q with Some b => b | None => false end)
  | limit, offset => reject (errors_of limit ++ errors_of offset)
  end.

Record TimeseriesQuery : Type := {
  t_station_id : option string;
  t_pollutant : option string;
  t_hours : option Z
}.

Definition get_measurements_timeseries (q : TimeseriesQuery)
    : Handler (list TimePoint.t) :=
  match check_required "station_id" (t_station_id q),
        check_required "pollutant" (t_pollutant q),
        check_int "hours" hours_query (t_hours q) with
  | inl station_id, inl pollutant, inl hours =>
      measurements_timeseries station_id pollutant hours
  | station_id, pollutant, hours =>
      reject (errors_of station_id ++ errors_of pollutant ++ errors_of hours)
  end.

End App.

(** ** How the properties read the datastore and the responses *)

Section Reading.

Context {RT : Runtime}.

(** A row of [measurements] of one station and pollutant, not older than
    [since]. *)
Definition series_matches (station_id pollutant : string) (since : Z)
    (r : MeasurementRow) : bool :=
  (m_station_id r =? station_id) && (m_pollutant r =? pollutant)
  && Z.leb since (m_ts r).

(** The [TimePoint] of a row. *)
Definition timepoint_of_row (r : MeasurementRow) : TimePoint.t :=
  {| TimePoint.station_id := m_station_id r;
     TimePoint.pollutant := m_pollutant r;
     TimePoint.value := m_value r;
     TimePoint.unit := m_unit r;
     TimePoint.country := m_country r;
     TimePoint.city := m_city r;
     TimePoint.location_name := m_location_name r;
     TimePoint.timestamp := m_ts r;
     TimePoint.source := m_source r |}.

(** The [Measurement] of a row. *)
Definition measurement_of_row (r : MeasurementRow) : Measurement.t :=
  {| Measurement.station_id := m_station_id r;
     Measurement.pollutant := m_pollutant r;
     Measurement.value := m_value r;
     Measurement.unit := m_unit r;
     Measurement.city := m_city r;
     Measurement.location_name := m_location_name r;
     Measurement.lat := m_lat r;
     Measurement.lon := m_lon r;
     Measurement.country := m_country r;
     Measurement.timestamp := m_ts r;
     Measurement.source := m_source r |}.

(** An equality filter on a column: a filter that is not supplied (absent, or
    the empty string) lets every row through. *)
Definition passes (supplied : option string) (column : option string) : bool :=
  match supplied with
  | Some v => if v =? "" then true else option_eqb String.eqb column (Some v)
  | None => true
  end.

(** The conjunction of the supplied filters of [list_measurements]. *)
Definition matches_filters (station_id country pollutant : option string)
    (r : MeasurementRow) : bool :=
  passes station_id (Some (m_station_id r))
  && passes country (m_country r)
  && passes pollutant (Some (m_pollutant r)).

(** One element of the [measurements] array of [list_stations_wkt]. *)
Definition entry_of (m : MeasurementRow) : Json :=
  JObj [("pollutant", JStr (m_pollutant m));
        ("value", json_num (m_value m));
        ("unit", json_text (m_unit m));
        ("timestamp", JStr (json_timestamp (m_ts m)))].

(** The coordinates of a GeoJSON feature. *)
Definition coordinates (feature : Json) : Json :=
  json_get (json_get feature "geometry") "coordinates".


(** The WHERE clause over [stations]: both coordinates present, and the
    country when that filter is supplied. *)
Definition station_passes (country : option string) (s : StationRow) : bool :=
  match s_lat s, s_lon s with
  | Some _, Some _ => passes country (s_country s)
  | _, _ => false
  end.

(** The GeoJSON feature of a joined row. *)
Definition feature_of (sl : StationRow * MeasurementRow) : Json :=
  let (s, lm) := sl in
  JObj [("type", JStr "Feature");
        ("geometry",
         JObj [("type", JStr "Point");
               ("coordinates", JArr [json_num (s_lon s); json_num (s_lat s)])]);
        ("properties",
         JObj [("station_id", JStr (s_station_id s));
               ("source", json_text (s_source s));
               ("country", json_text (s_country s));
               ("city", json_text (s_city s));
               ("location_name", json_text (s_location_name s));
               ("pollutant", JStr (m_pollutant lm));
               ("value", json_num (m_value lm));
               ("unit", json_text (m_unit lm));
               ("timestamp", JStr (isoformat (m_ts lm)))])].

(** The object of /stations_wkt of a group, if its station has both
    coordinates. *)
Definition wkt_object_of (g : StationRow * list MeasurementRow) : list Json :=
  let (s, latest) := g in
  match s_lon s, s_lat s with
  | Some lon, Some lat =>
      [JObj [("wkt", JStr ("POINT(" ++ num_str lon ++ " " ++ num_str lat ++ ")")%string);
             ("station_id", JStr (s_station_id s));
             ("source", json_text (s_source s));
             ("country", json_text (s_country s));
             ("city", json_text (s_city s));
             ("location_name", json_text (s_location_name s));
             ("measurements", JArr (map entry_of latest))]]
  | _, _ => []
  end.

(** The WHERE clause over [measurements] of the two station endpoints: the
    pollutant, when that filter is supplied. *)
Definition considered (pollutant : option string) (r : MeasurementRow) : bool :=
  passes pollutant (Some (m_pollutant r)).

(** A property of a GeoJSON feature. *)
Definition property (feature : Json) (k : string) : Json :=
  json_get (json_get feature "properties") k.

(** A feature shows one station and the latest of its considered readings. *)
Definition shows_latest_of_station (db : Database) (pollutant : option string)
    (feature : Json) : Prop :=
  exists s m,
    In s (stations db) /\ In m (measurements db)
    /\ m_station_id m = s_station_id s
    /\ considered pollutant m = true
    /\ property feature "station_id" = JStr (s_station_id s)
    /\ property feature "pollutant" = JStr (m_pollutant m)
    /\ property feature "value" = json_num (m_value m)
    /\ property feature "unit" = json_text (m_unit m)
    /\ property feature "timestamp" = JStr (isoformat (m_ts m))
    /\ forall m', In m' (measurements db) ->
                  m_station_id m' = s_station_id s ->
                  considered pollutant m' = true ->
                  m_ts m' <= m_ts m.

(** The readings [latest] are, for one station, the most recent considered
    reading of every pollutant the station has considered readings of. *)
Definition latest_per_pollutant (db : Database) (pollutant : option string)
    (s : StationRow) (latest : list MeasurementRow) : Prop :=
  NoDup (map m_pollutant latest)
  /\ (forall m, In m latest ->
        In m (measurements db)
        /\ m_station_id m = s_station_id s
        /\ considered pollutant m = true
        /\ forall m', In m' (measurements db) ->
                      m_station_id m' = s_station_id s ->
                      m_pollutant m' = m_pollutant m ->
                      m_ts m' <= m_ts m)
  /\ (forall m, In m (measurements db) ->
        m_station_id m = s_station_id s ->
        considered pollutant m = true ->
        In (m_pollutant m) (map m_pollutant latest)).

(** An object of /stations_wkt shows one station and, in its measurements
    array, the latest reading of each pollutant. *)
Definition shows_latest_per_pollutant (db : Database)
    (pollutant : option string) (o : Json) : Prop :=
  exists s latest,
    In s (stations db)
    /\ json_get o "station_id" = JStr (s_station_id s)
    /\ json_get o "measurements" = JArr (map entry_of latest)
    /\ latest_per_pollutant db pollutant s latest
    /\ (forall p1 p2,
          p1 <> p2 -> truthy pollutant = false ->
          (exists m, In m (measurements db)
                     /\ m_station_id m = s_station_id s /\ m_pollutant m = p1) ->
          (exists m, In m (measurements db)
                     /\ m_station_id m = s_station_id s /\ m_pollutant m = p2) ->
          (forall m, In m (measurements db) ->
                     m_station_id m = s_station_id s ->
                     m_pollutant m = p1 \/ m_pollutant m = p2) ->
          List.length (map entry_of latest) = 2%nat).

(** An output of a geospatial endpoint is built from a station with both
    coordinates. *)
Definition located (db : Database) (station_id : Json)
    (shown : num -> num -> Prop) : Prop :=
  exists s lon lat,
    In s (stations db) /\ s_lon s = Some lon /\ s_lat s = Some lat
    /\ station_id = JStr (s_station_id s) /\ shown lon lat.
End Reading.

(** ** A runtime and a datastore to run the handlers on

    Numbers are integers, printed in decimal; instants print as their count
    of microseconds. *)

Definition decimal (z : Z) : string := NilZero.string_of_int (Z.to_int z).

#[export] Instance ZRuntime : Runtime := {|
  num := Z;
  num_eqb := Z.eqb;
  num_eqb_spec := Z.eqb_eq;
  num_str := decimal;
  isoformat := decimal;
  json_timestamp := decimal
|}.

Definition reading (station_id pollutant : string) (value ts : Z)
    : MeasurementRow :=
  {| m_station_id := station_id; m_pollutant := pollutant;
     m_value := Some value; m_unit := Some "ug/m3"; m_city := None;
     m_location_name := None; m_lat := None; m_lon := None;
     m_country := Some "NL"; m_ts := ts; m_source := None |}.

Definition station (station_id : string) (lat lon : option Z) : StationRow :=
  {| s_station_id := station_id; s_source := None; s_country := Some "NL";
     s_city := None; s_location_name := None; s_lat := lat; s_lon := lon |}.

Definition sample_db : Database :=
  {| measurements :=
       [reading "A" "pm25" 1 10; reading "A" "no2" 2 20;
        reading "B" "pm25" 3 5; reading "A" "pm25" 4 30;
        reading "C" "o3" 9 7];
     stations :=
       [station "B" (Some 1) (Some 2); station "A" (Some 3) (Some 4);
        station "C" None (Some 1)] |}.

Definition sample_env : Env := {| clock := 100; store := sample_db |}.

(** The same rows, with the heap of [measurements] in the opposite order. *)
Definition sample_env_reversed : Env :=
  {| clock := 100;
     store := {| measurements := rev (measurements sample_db);
                 stations := stations sample_db |} |}.

(** The same rows, with the heap of [stations] in the opposite order. *)
Definition sample_env_stations_reversed : Env :=
  {| clock := 100;
     store := {| measurements := measurements sample_db;
                 stations := rev (stations sample_db) |} |}.

(** The datastore of the example of the time series, 40 hours after the
    epoch. *)
Definition series_now : Z := timedelta_hours 40.

Definition series_env : Env :=
  {| clock := series_now;
     store :=
       {| measurements :=
            [reading "NL01491" "pm25" 11 (series_now - timedelta_hours 1);
             reading "NL01491" "pm25" 12 (series_now - timedelta_hours 5);
             reading "NL01491" "pm25" 13 (series_now - timedelta_hours 30)];
          stations := [] |} |}.

(** The object /stations_wkt answers for station A of [sample_db]. *)
Definition sample_wkt_A : Json :=
  JObj [("wkt", JStr "POINT(4 3)"); ("station_id", JStr "A");
        ("source", JNull); ("country", JStr "NL"); ("city", JNull);
        ("location_name", JNull);
        ("measurements",
         JArr [JObj [("pollutant", JStr "no2"); ("value", JNum 2);
                     ("unit", JStr "ug/m3"); ("timestamp", JStr "20")];
               JObj [("pollutant", JStr "pm25"); ("value", JNum 4);
                     ("unit", JStr "ug/m3"); ("timestamp", JStr "30")]])].

Definition sample_wkt_B : Json :=
  JObj [("wkt", JStr "POINT(2 1)"); ("station_id", JStr "B");
        ("source", JNull); ("country", JStr "NL"); ("city", JNull);
        ("location_name", JNull);
        ("measurements",
         JArr [JObj [("pollutant", JStr "pm25"); ("value", JNum 3);
                     ("unit", JStr "ug/m3"); ("timestamp", JStr "5")]])].

(** ** Configuration: [app/config.py] and the CORS set-up of [app/main.py]

    The settings are read from the process environment when the module is
    imported.  [str.strip] and [str.split] look at characters, so a Python
    [str] is here the list of its code points. *)

Module Py.

Definition str : Type := list N.

(** A literal of the source. *)
Definition lit (s : string) : str := map N_of_ascii (list_ascii_of_string s).

(** [str.isspace] of one character: the white space of Unicode. *)
Definition isspace (c : N) : bool :=
  ((9 <=? c) && (c <=? 13) || (28 <=? c) && (c <=? 32)
   || (c =? 133) || (c =? 160) || (c =? 5760)
   || (8192 <=? c) && (c <=? 8202) || (c =? 8232) || (c =? 8233)
   || (c =? 8239) || (c =? 8287) || (c =? 12288))%N.

(** [s.lstrip()], [s.rstrip()] and [s.strip()] *)
Fixpoint lstrip (s : str) : str :=
  match s with
  | [] => []
  | c :: rest => if isspace c then lstrip rest else s
  end.

Definition rstrip (s : str) : str := rev (lstrip (rev s)).

Definition strip (s : str) : str := rstrip (lstrip s).

(** [s.split(sep)] for a separator of one character: never the empty list. *)
Fixpoint split (sep : N) (s : str) : list str :=
  match s with
  | [] => [[]]
  | c :: rest =>
      if (c =? sep)%N then [] :: split sep rest
      else match split sep rest with
           | piece :: pieces => (c :: piece) :: pieces
           | [] => [[c]]
           end
  end.

(** [os.environ], and [os.getenv(key, default)] *)
Definition Environ : Type := list (str * str).

Fixpoint lookup (key : str) (environ : Environ) : option str :=
  match environ with
  | [] => None
  | (k, v) :: rest =>
      if list_eq_dec N.eq_dec k key then Some v else lookup key rest
  end.

Definition getenv (environ : Environ) (key default : str) : str :=
  match lookup key environ with
  | Some v => v
  | None => default
  end.

End Py.

Module Config.

(** The default factory of [Settings.allowed_origins]:
    [os.getenv("ALLOWED_ORIGINS", "*").split(",")] *)
Definition allowed_origins (environ : Py.Environ) : list Py.str :=
  Py.split 44 (Py.getenv environ (Py.lit "ALLOWED_ORIGINS") (Py.lit "*")).

End Config.

(** The [allow_origins] handed to the CORS middleware:
    [[origin.strip() for origin in settings.allowed_origins if origin.strip()]] *)
Definition allow_origins (allowed_origins : list Py.str) : list Py.str :=
  map Py.strip
    (filter (fun origin => match Py.strip origin with [] => false | _ => true end)
            allowed_origins).

(** ** The placeholders of a statement

    The driver binds the keys of [params] to the [%(name)s] placeholders of
    the statement text; [%%] is a percent sign. *)

Fixpoint placeholders_from (s : string) (percent : bool) (name : option string)
    : list string :=
  match s with
  | EmptyString => []
  | String c rest =>
      match name with
      | Some n =>
          if Ascii.eqb c ")" then n :: placeholders_from rest false None
          else placeholders_from rest false (Some (n ++ String c "")%string)
      | None =>
          if percent && Ascii.eqb c "(" then placeholders_from rest false (Some "")
          else placeholders_from rest (negb percent && Ascii.eqb c "%") None
      end
  end.

Definition placeholders (text : string) : list string :=
  placeholders_from text false None.

(** ** More of what the properties read *)

Section Shown.

Context {RT : Runtime}.

(** A station the two station endpoints show: it has both coordinates, passes
    the country filter and has a considered reading. *)
Definition eligible (db : Database) (country pollutant : option string)
    (s : StationRow) : Prop :=
  In s (stations db)
  /\ station_passes country s = true
  /\ exists m, In m (measurements db)
               /\ m_station_id m = s_station_id s
               /\ considered pollutant m = true.

(** A feature shows station [s] and the latest of its considered readings. *)
Definition shows_latest_reading (db : Database) (pollutant : option string)
    (s : StationRow) (feature : Json) : Prop :=
  exists m,
    In m (measurements db)
    /\ m_station_id m = s_station_id s
    /\ considered pollutant m = true
    /\ property feature "station_id" = JStr (s_station_id s)
    /\ property feature "pollutant" = JStr (m_pollutant m)
    /\ property feature "value" = json_num (m_value m)
    /\ property feature "unit" = json_text (m_unit m)
    /\ property feature "timestamp" = JStr (isoformat (m_ts m))
    /\ forall m', In m' (measurements db) ->
                  m_station_id m' = s_station_id s ->
                  considered pollutant m' = true ->
                  m_ts m' <= m_ts m.
(** Two objects of /stations_wkt that differ at most in the order of the
    entries of their measurements arrays. *)
Definition same_object (o o' : Json) : Prop :=
  (forall k, k <> "measurements" -> json_get o k = json_get o' k)
  /\ exists entries entries',
       json_get o "measurements" = JArr entries
       /\ json_get o' "measurements" = JArr entries'
       /\ Permutation entries entries'.
End Shown.

(** An environment that sets the origins, and requests to the routes. *)
Definition sample_environ : Py.Environ :=
  [(Py.lit "POSTGRES_HOST", Py.lit "db");
   (Py.lit "ALLOWED_ORIGINS", Py.lit " http://a.b , ,http://c ,")].

Definition sample_page : MeasurementsQuery :=
  {| q_limit := None; q_offset := Some 1; q_station_id := None;
     q_country := None; q_pollutant := None;
     q_latest_per_station := None |}.

Definition sample_series : TimeseriesQuery :=
  {| t_station_id := Some "NL01491"; t_pollutant := Some "pm25";
     t_hours := None |}.

Definition sample_incomplete : TimeseriesQuery :=
  {| t_station_id := None; t_pollutant := None; t_hours := Some 500 |}.

(** ** Properties *)

Unset Implicit Arguments.

(** *** ORDER BY returns its input, sorted *)

Section OrderFacts.

Variable A : Type.
Variable le : A -> A -> bool.

Lemma insert_sorted_perm (x : A) (l : list A) :
  Permutation (x :: l) (insert_sorted le x l).
Proof.
  induction l as [|y l IH]; cbn; [reflexivity|].
  destruct (le x y); [reflexivity|].
  rewrite perm_swap. now constructor.
Qed.

Lemma order_by_perm (l : list A) : Permutation l (order_by le l).
Proof.
  induction l as [|x l IH]; cbn; [constructor|].
  etransitivity; [|apply insert_sorted_perm]. now constructor.
Qed.

Lemma order_by_In (l : list A) (x : A) : In x (order_by le l) <-> In x l.
Proof.
  split; apply Permutation_in; [symmetry|]; apply order_by_perm.
Qed.

Hypothesis le_total : forall a b, le a b = true \/ le b a = true.
Hypothesis le_trans :
  forall a b c, le a b = true -> le b c = true -> le a c = true.

Lemma insert_sorted_sorted (x : A) (l : list A) :
  StronglySorted (fun a b => le a b = true) l ->
  StronglySorted (fun a b => le a b = true) (insert_sorted le x l).
Proof.
  induction 1 as [|y l Hs IH Hall]; cbn.
  - repeat constructor.
  - destruct (le x y) eqn:E.
    + constructor; [now constructor|].
      constructor; [assumption|].
      eapply Forall_impl; [|exact Hall]. intros z Hz. now apply le_trans with y.
    + constructor; [assumption|].
      rewrite Forall_forall in *. intros z Hz.
      apply Permutation_in with (l' := x :: l) in Hz;
        [|symmetry; apply insert_sorted_perm].
      destruct Hz as [<-|Hz]; [|now apply Hall].
      destruct (le_total x y); congruence.
Qed.

Lemma order_by_sorted (l : list A) :
  StronglySorted (fun a b => le a b = true) (order_by le l).
Proof.
  induction l as [|x l IH]; cbn; [constructor|].
  now apply insert_sorted_sorted.
Qed.

End OrderFacts.

Section SortedFacts.

Variables A B : Type.
Variable R : A -> A -> Prop.


Lemma StronglySorted_map (f : A -> B) (S : B -> B -> Prop) (l : list A) :
  (forall a b, R a b -> S (f a) (f b)) ->
  StronglySorted R l -> StronglySorted S (map f l).
Proof.
  intros HR. induction 1 as [|x l Hs IH Hall]; cbn; constructor; [assumption|].
  apply Forall_map. eapply Forall_impl; [|exact Hall]. auto.
Qed.




End SortedFacts.

(** *** DISTINCT ON keeps the first row of every key *)

Section DistinctFacts.

Variable A : Type.
Variable same : A -> A -> bool.

Lemma distinct_on_In (l : list A) (x : A) :
  In x (distinct_on same l) -> In x l.
Proof.
  induction l as [|a l IH]; cbn; [tauto|].
  intros [->|H]; [now left|].
  apply filter_In in H. right. tauto.
Qed.

Lemma distinct_on_first (l : list A) (r : A) :
  In r (distinct_on same l) ->
  exists l1 l2, l = l1 ++ r :: l2 /\ forall x, In x l1 -> same x r = false.
Proof.
  induction l as [|a l IH]; cbn; [tauto|].
  intros [->|H].
  - exists [], l. split; [reflexivity|]. intros x [].
  - apply filter_In in H as [H Ha].
    destruct (IH H) as (l1 & l2 & -> & Hl1).
    exists (a :: l1), l2. split; [reflexivity|].
    intros x [<-|Hx]; [|now apply Hl1].
    now apply negb_true_iff.
Qed.

Lemma ForallOrdPairs_filter (R : A -> A -> Prop) (p : A -> bool) (l : list A) :
  ForallOrdPairs R l -> ForallOrdPairs R (filter p l).
Proof.
  induction 1 as [|a l Hall Hl IH]; cbn; [constructor|].
  destruct (p a); [|assumption].
  constructor; [|assumption].
  rewrite Forall_forall in *. intros x Hx. apply filter_In in Hx. now apply Hall.
Qed.

Lemma distinct_on_pairwise (l : list A) :
  ForallOrdPairs (fun a b => same a b = false) (distinct_on same l).
Proof.
  induction l as [|a l IH]; cbn; constructor.
  - apply Forall_forall. intros x Hx. apply filter_In in Hx as [_ Hx].
    now apply negb_true_iff.
  - now apply ForallOrdPairs_filter.
Qed.

Hypothesis same_refl : forall a, same a a = true.
Hypothesis same_trans :
  forall a b c, same a b = true -> same b c = true -> same a c = true.

Lemma distinct_on_covers (l : list A) (x : A) :
  In x l -> exists y, In y (distinct_on same l) /\ same y x = true.
Proof.
  induction l as [|a l IH]; cbn; [tauto|].
  intros [->|H].
  - exists x. auto.
  - destruct (IH H) as (y & Hy & Hyx).
    destruct (same a y) eqn:E.
    + exists a. split; [now left|]. now apply same_trans with y.
    + exists y. split; [|assumption]. right. apply filter_In.
      split; [assumption|]. now rewrite E.
Qed.

End DistinctFacts.

Section PairwiseFacts.

Variables A B : Type.

Lemma pairwise_NoDup_map (R : A -> A -> Prop) (f : A -> B) (l : list A) :
  ForallOrdPairs R l ->
  (forall a b, In a l -> In b l -> R a b -> f a <> f b) ->
  NoDup (map f l).
Proof.
  intros H HR. induction H as [|a l Hall Hl IH]; cbn; constructor.
  - intros Hin. apply in_map_iff in Hin as (b & Hb & Hin).
    rewrite Forall_forall in Hall. apply (HR a b); cbn; auto.
  - apply IH. intros x y Hx Hy. apply HR; cbn; auto.
Qed.

Lemma pairwise_at_most_one (R : A -> A -> Prop) (l : list A) :
  ForallOrdPairs R l ->
  (forall a b, In a l -> In b l -> ~ R a b) ->
  (List.length l <= 1)%nat.
Proof.
  intros H HR. destruct l as [|a [|b l]]; cbn; try lia.
  exfalso. inversion H as [|? ? Hall _]; subst.
  inversion Hall; subst. apply (HR a b); cbn; auto.
Qed.

Lemma NoDup_two (l : list A) (a b : A) :
  NoDup l -> a <> b -> In a l -> In b l ->
  (forall x, In x l -> x = a \/ x = b) ->
  List.length l = 2%nat.
Proof.
  intros Hnd Hab Ha Hb Hall.
  assert (H1 : (List.length l <= List.length [a; b])%nat).
  { apply NoDup_incl_length; [assumption|].
    intros x Hx. destruct (Hall x Hx) as [->| ->]; cbn; auto. }
  assert (H2 : (List.length [a; b] <= List.length l)%nat).
  { apply NoDup_incl_length.
    - constructor; [cbn; intuition congruence|]. constructor; [tauto|constructor].
    - intros x [<-|[<-|[]]]; assumption. }
  cbn in H1, H2. lia.
Qed.

End PairwiseFacts.

(** *** Text order *)

Lemma compare_refl (s : string) : String.compare s s = Eq.
Proof. now apply String_as_OT.cmp_eq. Qed.

Lemma compare_lt_trans (a b c : string) :
  String.compare a b = Lt -> String.compare b c = Lt -> String.compare a c = Lt.
Proof.
  intros H1 H2. apply String_as_OT.cmp_lt.
  apply String_as_OT.lt_trans with b; now apply String_as_OT.cmp_lt.
Qed.

Section LexFacts.

Variable A : Type.
Variable key : A -> string.
Variable rest : A -> A -> bool.
Hypothesis rest_total : forall a b, rest a b = true \/ rest b a = true.
Hypothesis rest_trans :
  forall a b c, rest a b = true -> rest b c = true -> rest a c = true.

Lemma then_by_total (a b : A) :
  then_by key rest a b = true \/ then_by key rest b a = true.
Proof.
  unfold then_by. rewrite (String.compare_antisym (key a) (key b)).
  destruct (String.compare (key b) (key a)); cbn; auto.
Qed.

Lemma then_by_trans (a b c : A) :
  then_by key rest a b = true -> then_by key rest b c = true ->
  then_by key rest a c = true.
Proof.
  unfold then_by.
  destruct (String.compare (key a) (key b)) eqn:Eab; try discriminate;
    destruct (String.compare (key b) (key c)) eqn:Ebc; try discriminate;
    intros Hab Hbc.
  - apply String.compare_eq_iff in Eab, Ebc. rewrite Eab, Ebc, compare_refl.
    apply rest_trans with b; assumption.
  - apply String.compare_eq_iff in Eab. now rewrite Eab, Ebc.
  - apply String.compare_eq_iff in Ebc. now rewrite <- Ebc, Eab.
  - now rewrite (compare_lt_trans _ _ _ Eab Ebc).
Qed.

Lemma then_by_same_key (a b : A) :
  key a = key b -> then_by key rest a b = rest a b.
Proof. intros E. unfold then_by. now rewrite E, compare_refl. Qed.

End LexFacts.

Section FirstOfSorted.

Variable A : Type.
Variable le : A -> A -> bool.
Variable same : A -> A -> bool.
Hypothesis le_total : forall a b, le a b = true \/ le b a = true.
Hypothesis le_trans :
  forall a b c, le a b = true -> le b c = true -> le a c = true.

(** The row DISTINCT ON keeps for a key comes first, in the ORDER BY order,
    among the rows of that key. *)
Lemma distinct_on_order_by_least (l : list A) (r x : A) :
  In r (distinct_on same (order_by le l)) ->
  In x l -> same x r = true -> le r x = true.
Proof.
  intros Hr Hx Hsame.
  pose proof Hr as Hf. apply distinct_on_first in Hf.
  destruct Hf as (l1 & l2 & E & Hl1).
  pose proof (order_by_sorted A le le_total le_trans l) as S.
  apply (order_by_In A le) in Hx. rewrite E in Hx, S.
  apply in_app_or in Hx as [Hx|[<-|Hx]].
  - apply Hl1 in Hx. congruence.
  - destruct (le_total r r); assumption.
  - clear E Hl1. induction l1 as [|a l1 IH]; cbn in S.
    + inversion S as [|? ? _ Hall]; subst.
      rewrite Forall_forall in Hall. now apply Hall.
    + inversion S; subst. now apply IH.
Qed.

End FirstOfSorted.

(** *** Heap order *)

Section PermFacts.
Variable A : Type.

Lemma filter_Permutation (p : A -> bool) (l l' : list A) :
  Permutation l l' -> Permutation (filter p l) (filter p l').
Proof.
  induction 1 as [|x l l' H IH|x y l|l l' l'' H1 IH1 H2 IH2]; cbn.
  - constructor.
  - destruct (p x); [now constructor|assumption].
  - destruct (p x), (p y); try reflexivity. apply perm_swap.
  - now transitivity (filter p l').
Qed.

(** Two sorted arrangements of the same rows are equal when no two distinct
    rows tie. *)
Lemma sorted_unique (R : A -> A -> Prop) (l1 l2 : list A) :
  (forall a b, In a l1 -> In b l1 -> R a b -> R b a -> a = b) ->
  StronglySorted R l1 -> StronglySorted R l2 -> Permutation l1 l2 -> l1 = l2.
Proof.
  revert l2. induction l1 as [|a l1 IH]; intros l2 Hanti S1 S2 P.
  - apply Permutation_nil in P. now subst.
  - destruct l2 as [|b l2].
    + apply Permutation_sym, Permutation_nil in P. discriminate.
    + inversion S1 as [|? ? S1' H1]; subst. inversion S2 as [|? ? S2' H2]; subst.
      rewrite Forall_forall in H1, H2.
      assert (E : a = b).
      { assert (Ha : In a (b :: l2)) by (eapply Permutation_in; [exact P|now left]).
        assert (Hb : In b (a :: l1))
          by (eapply Permutation_in; [symmetry; exact P|now left]).
        destruct Ha as [->|Ha]; [reflexivity|].
        destruct Hb as [->|Hb]; [reflexivity|].
        apply Hanti; cbn; auto. }
      subst b. f_equal. apply IH; auto.
      * intros x y Hx Hy. apply Hanti; cbn; auto.
      * now apply Permutation_cons_inv in P.
Qed.

End PermFacts.

(** *** Lists *)

Lemma filter_pair (A B : Type) (p : A -> bool) (a : A) (l : list B) :
  filter (fun kv => p (fst kv)) (map (pair a) l)
  = if p a then map (pair a) l else [].
Proof.
  induction l as [|b l IH]; cbn; [now destruct (p a)|].
  rewrite IH. now destruct (p a).
Qed.

Lemma filter_none (A : Type) (p : A -> bool) (l : list A) :
  (forall x, In x l -> p x = false) -> filter p l = [].
Proof.
  induction l as [|a l IH]; cbn; [reflexivity|]. intros H.
  rewrite (H a) by auto. apply IH. auto.
Qed.

Lemma NoDup_map_eq (A B : Type) (f : A -> B) (l : list A) (a b : A) :
  NoDup (map f l) -> In a l -> In b l -> f a = f b -> a = b.
Proof.
  induction l as [|x l IH]; cbn; [tauto|].
  intros Hnd Ha Hb E. inversion Hnd as [|? ? Hx Hl]; subst.
  destruct Ha as [->|Ha], Hb as [->|Hb]; auto.
  - exfalso. apply Hx. rewrite E. now apply in_map.
  - exfalso. apply Hx. rewrite <- E. now apply in_map.
Qed.

Lemma NoDup_map_inj (A B : Type) (f : A -> B) (l : list A) :
  (forall x y, f x = f y -> x = y) -> NoDup l -> NoDup (map f l).
Proof.
  intros Hf. induction 1 as [|a l Ha Hl IH]; cbn; constructor; [|assumption].
  intros H. apply in_map_iff in H as (b & E & Hb). apply Hf in E. now subst.
Qed.

Lemma option_eqb_spec (A : Type) (eqb : A -> A -> bool) :
  (forall x y, eqb x y = true <-> x = y) ->
  forall a b, option_eqb eqb a b = true <-> a = b.
Proof.
  intros H [x|] [y|]; cbn; try (split; congruence).
  rewrite H. split; congruence.
Qed.

(** ** Row order *)

Section HeapOrder.
Variables A K : Type.
Variable le : A -> A -> bool.
Variable key : A -> K.
Hypothesis le_total : forall a b, le a b = true \/ le b a = true.
Hypothesis le_trans :
  forall a b c, le a b = true -> le b c = true -> le a c = true.
Hypothesis le_key :
  forall a b, le a b = true -> le b a = true -> key a = key b.

(** ORDER BY does not depend on the heap order of the rows it sorts when no
    two of them tie. *)
Lemma order_by_heap_order (rows rows' : list A) :
  Permutation rows rows' -> NoDup (map key rows) ->
  order_by le rows = order_by le rows'.
Proof.
  intros P Hnd.
  apply sorted_unique with (R := fun a b => le a b = true).
  - intros a b Ha Hb Hab Hba. apply order_by_In in Ha, Hb.
    apply (NoDup_map_eq _ _ key rows); auto.
  - now apply order_by_sorted.
  - now apply order_by_sorted.
  - now rewrite <- !order_by_perm.
Qed.
End HeapOrder.

Section DistinctBlocks.
Variable A : Type.
Variable same : A -> A -> bool.
Hypothesis same_refl : forall a, same a a = true.

Lemma filter_all (p : A -> bool) (l : list A) :
  (forall x, In x l -> p x = true) -> filter p l = l.
Proof.
  induction l as [|a l IH]; cbn; [reflexivity|]. intros H.
  rewrite (H a) by auto. f_equal. apply IH. auto.
Qed.

Lemma filter_twice (p : A -> bool) (l : list A) :
  filter p (filter p l) = filter p l.
Proof.
  apply filter_all. intros x Hx. now apply filter_In in Hx.
Qed.

(** DISTINCT ON over rows that start with a run of one key. *)
Lemma distinct_on_run (B : Type) (s : A) (run : list B) (rest : list A) :
  distinct_on same (map (fun _ => s) run ++ rest)
  = match run with
    | [] => distinct_on same rest
    | _ :: _ => s :: filter (fun x => negb (same s x)) (distinct_on same rest)
    end.
Proof.
  induction run as [|b run IH]; [reflexivity|].
  cbn [map app distinct_on]. rewrite IH.
  destruct run; [reflexivity|].
  cbn [filter]. rewrite same_refl. cbn [negb]. now rewrite filter_twice.
Qed.
End DistinctBlocks.

Lemma Forall2_diag (A : Type) (R : A -> A -> Prop) (l : list A) :
  (forall a, In a l -> R a a) -> Forall2 R l l.
Proof.
  induction l as [|a l IH]; intros H; constructor.
  - apply H. now left.
  - apply IH. intros b Hb. apply H. now right.
Qed.

Section Properties.

Context {RT : Runtime}.

Lemma ts_asc_total (a b : MeasurementRow) :
  ts_asc a b = true \/ ts_asc b a = true.
Proof. unfold ts_asc. rewrite !Z.leb_le. lia. Qed.

Lemma ts_asc_trans (a b c : MeasurementRow) :
  ts_asc a b = true -> ts_asc b c = true -> ts_asc a c = true.
Proof. unfold ts_asc. rewrite !Z.leb_le. lia. Qed.

Lemma ts_desc_total (a b : MeasurementRow) :
  ts_desc a b = true \/ ts_desc b a = true.
Proof. unfold ts_desc. rewrite !Z.leb_le. lia. Qed.

Lemma ts_desc_trans (a b c : MeasurementRow) :
  ts_desc a b = true -> ts_desc b c = true -> ts_desc a c = true.
Proof. unfold ts_desc. rewrite !Z.leb_le. lia. Qed.

(** The WHERE clause of the time series, on one row. *)
Lemma series_where (r : MeasurementRow) (sid pol : string) (since : Z) :
  eval_where (measurement_col r)
    [("station_id", VStr sid); ("pollutant", VStr pol); ("since", VTime since)]
    [ColEq "station_id" "station_id"; ColEq "pollutant" "pollutant";
     ColGe "ts" "since"]
  = series_matches sid pol since r.
Proof.
  unfold series_matches. cbn.
  destruct (m_station_id r =? sid), (m_pollutant r =? pol),
    (Z.leb since (m_ts r)); reflexivity.
Qed.

(** What [measurements_timeseries] answers, in terms of the table. *)
Lemma timeseries_outcome (sid pol : string) (h : Z) (env : Env) :
  snd (measurements_timeseries sid pol h env) =
  match order_by ts_asc
          (filter (series_matches sid pol (clock env - timedelta_hours h))
                  (measurements (store env))) with
  | [] => HTTPException 404 "No measurements for given station/pollutant"
  | rows => Ok (map timepoint_of_row rows)
  end.
Proof.
  unfold measurements_timeseries, bind, utcnow, execute.
  cbn [plan run_plan]. unfold from_measurements.
  rewrite (filter_ext _ _ (fun r => series_where r sid pol _)).
  destruct (order_by _ _) as [|r rows]; [reflexivity|].
  cbn [map snd]. unfold ret. cbn [snd]. rewrite map_map. reflexivity.
Qed.

Lemma select_measurement_row (rows : list MeasurementRow) :
  map (fun row : MeasurementTuple =>
         let '(r0, r1, r2, r3, r4, r5, r6, r7, r8, r9, r10) := row in
         {| Measurement.station_id := r0;
            Measurement.pollutant := r1;
            Measurement.value := r2;
            Measurement.unit := r3;
            Measurement.city := r4;
            Measurement.location_name := r5;
            Measurement.lat := r6;
            Measurement.lon := r7;
            Measurement.country := r8;
            Measurement.timestamp := r9;
            Measurement.source := r10 |})
      (map select_measurement rows)
  = map measurement_of_row rows.
Proof. rewrite map_map. reflexivity. Qed.

(** What [list_measurements] answers, in terms of the table. *)
Lemma list_measurements_outcome limit offset sid c p flag env :
  snd (list_measurements limit offset sid c p flag env)
  = if Z.leb 0 limit && Z.leb 0 offset
    then Ok (map measurement_of_row
               (firstn (Z.to_nat limit)
                  (skipn (Z.to_nat offset)
                     (order_by ts_desc
                        (filter (matches_filters sid c p)
                                (measurements (store env)))))))
    else ServerError.
Proof.
  unfold list_measurements, bind, execute, ret. cbv zeta. cbn [plan run_plan].
  unfold from_measurements.
  match goal with
  | |- context [filter ?f (measurements _)] =>
      rewrite (filter_ext f (matches_filters sid c p))
  end.
  - unfold limit_offset.
    replace (param _ "limit") with (VInt limit)
      by (destruct (truthy p), (truthy c), (truthy sid); reflexivity).
    replace (param _ "offset") with (VInt offset)
      by (destruct (truthy p), (truthy c), (truthy sid); reflexivity).
    destruct (Z.leb 0 limit && Z.leb 0 offset); [|reflexivity].
    cbn [option_map snd]. rewrite select_measurement_row. reflexivity.
  - intros r. unfold matches_filters, passes.
    destruct sid as [s|]; [destruct (String.eqb_spec s "")|];
    (destruct c as [s'|]; [destruct (String.eqb_spec s' "")|]);
    (destruct p as [s''|]; [destruct (String.eqb_spec s'' "")|]); subst; cbn;
    repeat match goal with
    | |- context [String.eqb ?a ""] =>
        destruct (String.eqb_spec a ""); [congruence|]; cbn
    end;
    destruct (m_country r); cbn;
    repeat match goal with
    | |- context [String.eqb ?a ?b] => destruct (String.eqb a b); cbn
    end;
    reflexivity.
Qed.

(** The statements a handler executes do not depend on the datastore. *)
Lemma list_measurements_calls limit offset sid c p flag env env' :
  fst (list_measurements limit offset sid c p flag env)
  = fst (list_measurements limit offset sid c p flag env').
Proof.
  unfold list_measurements, bind, execute, ret. cbv zeta.
  do 2 destruct (run_plan _ _ _); reflexivity.
Qed.

Lemma timeseries_calls sid pol h env env' :
  clock env = clock env' ->
  fst (measurements_timeseries sid pol h env)
  = fst (measurements_timeseries sid pol h env').
Proof.
  intros E. unfold measurements_timeseries, bind, utcnow, execute, raise, ret.
  cbv zeta. rewrite E. cbn [plan run_plan].
  do 2 destruct (map select_series _); reflexivity.
Qed.


Lemma same_group_spec (a b : StationRow) : same_group a b = true <-> a = b.
Proof.
  destruct a, b. unfold same_group. cbn.
  rewrite !andb_true_iff, String.eqb_eq.
  rewrite !(option_eqb_spec _ String.eqb String.eqb_eq).
  rewrite !(option_eqb_spec _ num_eqb num_eqb_spec).
  split.
  - intros [[[[[[-> ->] ->] ->] ->] ->] ->]. reflexivity.
  - intros [= -> -> -> -> -> -> ->]. tauto.
Qed.

Lemma stations_where (country pollutant : option string) (s : StationRow) :
  eval_where (station_col s)
    (if truthy country
     then dict_set "country" (of_text country)
            (if truthy pollutant
             then dict_set "pollutant" (of_text pollutant) [] else [])
     else if truthy pollutant
          then dict_set "pollutant" (of_text pollutant) [] else [])
    (if truthy country
     then [IsNotNull "s.lat"; IsNotNull "s.lon"] ++ [ColEq "s.country" "country"]
     else [IsNotNull "s.lat"; IsNotNull "s.lon"])
  = station_passes country s.
Proof.
  unfold station_passes, passes.
  destruct country as [c|]; [destruct (String.eqb_spec c "")|];
    (destruct pollutant as [p|]; [destruct (String.eqb_spec p "")|]);
    subst; cbn;
    repeat match goal with
    | |- context [String.eqb ?a ""] =>
        destruct (String.eqb_spec a ""); [congruence|]; cbn
    end;
    destruct (s_lat s), (s_lon s); cbn; try reflexivity;
    destruct (s_country s); cbn; try reflexivity;
    repeat match goal with
    | |- context [String.eqb ?a ?b] => destruct (String.eqb a b); cbn
    end; reflexivity.
Qed.

Lemma measurements_where (country pollutant : option string) (r : MeasurementRow) :
  eval_where (measurement_col r)
    (if truthy country
     then dict_set "country" (of_text country)
            (if truthy pollutant
             then dict_set "pollutant" (of_text pollutant) [] else [])
     else if truthy pollutant
          then dict_set "pollutant" (of_text pollutant) [] else [])
    (if truthy pollutant then [] ++ [ColEq "m.pollutant" "pollutant"] else [])
  = considered pollutant r.
Proof.
  unfold considered, passes.
  destruct country as [c|]; [destruct (String.eqb_spec c "")|];
    (destruct pollutant as [p|]; [destruct (String.eqb_spec p "")|]);
    subst; cbn;
    repeat match goal with
    | |- context [String.eqb ?a ""] =>
        destruct (String.eqb_spec a ""); [congruence|]; cbn
    end;
    repeat match goal with
    | |- context [String.eqb ?a ?b] => destruct (String.eqb a b); cbn
    end; reflexivity.
Qed.

Lemma list_stations_outcome (country pollutant : option string) (env : Env) :
  snd (list_stations country pollutant env)
  = Ok (JObj [("type", JStr "FeatureCollection");
              ("features",
               JArr (map feature_of
                 (filter (fun sl => station_passes country (fst sl))
                    (join_on (stations (store env))
                       (latest_per_station_id
                          (filter (considered pollutant)
                             (measurements (store env))))))))]).
Proof.
  unfold list_stations, bind, execute, ret. cbv zeta. cbn [plan run_plan snd].
  unfold join_latest, from_measurements.
  rewrite (filter_ext _ _ (measurements_where country pollutant)).
  rewrite (filter_ext _ _ (fun sl => stations_where country pollutant (fst sl))).
  rewrite map_map.
  rewrite (map_ext _ feature_of); [reflexivity|].
  intros [s lm]. reflexivity.
Qed.

Lemma list_stations_wkt_outcome (country pollutant : option string) (env : Env) :
  snd (list_stations_wkt country pollutant env)
  = Ok (flat_map wkt_object_of
          (group_by same_group
             (filter (fun sl => station_passes country (fst sl))
                (join_on (stations (store env))
                   (latest_per_station_pollutant
                      (filter (considered pollutant)
                         (measurements (store env)))))))).
Proof.
  unfold list_stations_wkt, bind, execute, ret. cbv zeta. cbn [plan run_plan snd].
  unfold join_latest, from_measurements.
  rewrite (filter_ext _ _ (measurements_where country pollutant)).
  rewrite (filter_ext _ _ (fun sl => stations_where country pollutant (fst sl))).
  f_equal. rewrite flat_map_concat_map, map_map, <- flat_map_concat_map.
  apply flat_map_ext. intros [s latest]. cbn.
  destruct (s_lon s), (s_lat s); try reflexivity.
  rewrite map_map. reflexivity.
Qed.

Lemma same_station_refl (a : MeasurementRow) : same_station a a = true.
Proof. apply String.eqb_refl. Qed.

Lemma same_station_trans (a b c : MeasurementRow) :
  same_station a b = true -> same_station b c = true -> same_station a c = true.
Proof. unfold same_station. rewrite !String.eqb_eq. congruence. Qed.

Lemma same_station_pollutant_iff (a b : MeasurementRow) :
  same_station_pollutant a b = true
  <-> m_station_id a = m_station_id b /\ m_pollutant a = m_pollutant b.
Proof.
  unfold same_station_pollutant. now rewrite andb_true_iff, !String.eqb_eq.
Qed.

Lemma same_station_pollutant_refl (a : MeasurementRow) :
  same_station_pollutant a a = true.
Proof. now apply same_station_pollutant_iff. Qed.

Lemma same_station_pollutant_trans (a b c : MeasurementRow) :
  same_station_pollutant a b = true -> same_station_pollutant b c = true ->
  same_station_pollutant a c = true.
Proof. rewrite !same_station_pollutant_iff. intuition congruence. Qed.

Lemma station_ts_desc_total (a b : MeasurementRow) :
  station_ts_desc a b = true \/ station_ts_desc b a = true.
Proof. exact (then_by_total _ m_station_id ts_desc ts_desc_total a b). Qed.

Lemma station_ts_desc_trans (a b c : MeasurementRow) :
  station_ts_desc a b = true -> station_ts_desc b c = true ->
  station_ts_desc a c = true.
Proof. exact (then_by_trans _ m_station_id ts_desc ts_desc_trans a b c). Qed.

Lemma station_pollutant_ts_desc_total (a b : MeasurementRow) :
  station_pollutant_ts_desc a b = true \/ station_pollutant_ts_desc b a = true.
Proof.
  exact (then_by_total _ m_station_id _
           (then_by_total _ m_pollutant ts_desc ts_desc_total) a b).
Qed.

Lemma station_pollutant_ts_desc_trans (a b c : MeasurementRow) :
  station_pollutant_ts_desc a b = true -> station_pollutant_ts_desc b c = true ->
  station_pollutant_ts_desc a c = true.
Proof.
  exact (then_by_trans _ m_station_id _
           (then_by_trans _ m_pollutant ts_desc ts_desc_trans) a b c).
Qed.

(** The CTE of [list_stations]: a row of the table, the latest of its
    station. *)
Lemma latest_per_station_id_In (rows : list MeasurementRow) (lm : MeasurementRow) :
  In lm (latest_per_station_id rows) -> In lm rows.
Proof.
  intros H. apply distinct_on_In in H. now apply order_by_In in H.
Qed.

Lemma latest_per_station_id_max (rows : list MeasurementRow)
    (lm m : MeasurementRow) :
  In lm (latest_per_station_id rows) -> In m rows ->
  m_station_id m = m_station_id lm -> m_ts m <= m_ts lm.
Proof.
  intros Hlm Hm E.
  assert (L : station_ts_desc lm m = true).
  { apply (distinct_on_order_by_least _ station_ts_desc same_station
             station_ts_desc_total station_ts_desc_trans rows); auto.
    now apply String.eqb_eq. }
  unfold station_ts_desc in L. rewrite then_by_same_key in L by congruence.
  now apply Z.leb_le.
Qed.

Lemma latest_per_station_id_covers (rows : list MeasurementRow)
    (m : MeasurementRow) :
  In m rows ->
  exists lm, In lm (latest_per_station_id rows)
             /\ m_station_id lm = m_station_id m.
Proof.
  intros Hm.
  destruct (distinct_on_covers _ same_station same_station_refl
              same_station_trans (order_by station_ts_desc rows) m)
    as (lm & Hlm & E).
  - now apply order_by_In.
  - apply String.eqb_eq in E. exists lm. tauto.
Qed.

Lemma latest_per_station_pollutant_In (rows : list MeasurementRow)
    (lm : MeasurementRow) :
  In lm (latest_per_station_pollutant rows) -> In lm rows.
Proof.
  intros H. apply distinct_on_In in H. now apply order_by_In in H.
Qed.

Lemma latest_per_station_pollutant_max (rows : list MeasurementRow)
    (lm m : MeasurementRow) :
  In lm (latest_per_station_pollutant rows) -> In m rows ->
  m_station_id m = m_station_id lm -> m_pollutant m = m_pollutant lm ->
  m_ts m <= m_ts lm.
Proof.
  intros Hlm Hm Es Ep.
  assert (L : station_pollutant_ts_desc lm m = true).
  { apply (distinct_on_order_by_least _ station_pollutant_ts_desc
             same_station_pollutant station_pollutant_ts_desc_total
             station_pollutant_ts_desc_trans rows); auto.
    now apply same_station_pollutant_iff. }
  unfold station_pollutant_ts_desc in L.
  rewrite !then_by_same_key in L by congruence.
  now apply Z.leb_le.
Qed.

Lemma latest_per_station_pollutant_covers (rows : list MeasurementRow)
    (m : MeasurementRow) :
  In m rows ->
  exists lm, In lm (latest_per_station_pollutant rows)
             /\ m_station_id lm = m_station_id m
             /\ m_pollutant lm = m_pollutant m.
Proof.
  intros Hm.
  destruct (distinct_on_covers _ same_station_pollutant
              same_station_pollutant_refl same_station_pollutant_trans
              (order_by station_pollutant_ts_desc rows) m) as (lm & Hlm & E).
  - now apply order_by_In.
  - apply same_station_pollutant_iff in E. exists lm. tauto.
Qed.

(** *** The join with [stations] *)

Lemma join_on_In (sts : list StationRow) (latest : list MeasurementRow)
    (s : StationRow) (lm : MeasurementRow) :
  In (s, lm) (join_on sts latest)
  <-> In s sts /\ In lm latest /\ m_station_id lm = s_station_id s.
Proof.
  unfold join_on. rewrite in_flat_map. split.
  - intros (s' & Hs' & H). apply in_map_iff in H as (lm' & [= <- <-] & H).
    apply filter_In in H as [H E]. apply String.eqb_eq in E. tauto.
  - intros (Hs & Hlm & E). exists s. split; [assumption|].
    apply in_map. apply filter_In. split; [assumption|]. now apply String.eqb_eq.
Qed.

(** The rows the join gives one station, when no row of [stations] is stored
    twice. *)
Lemma join_rows_of_station (sts : list StationRow)
    (latest : list MeasurementRow) (p : StationRow -> bool) (s : StationRow) :
  NoDup sts -> In s sts -> p s = true ->
  map snd (filter (fun kv => same_group s (fst kv))
             (filter (fun sl => p (fst sl)) (join_on sts latest)))
  = filter (fun lm => m_station_id lm =? s_station_id s) latest.
Proof.
  induction sts as [|s0 sts IH]; cbn [join_on flat_map map];
    [intros _ []|].
  intros Hnd Hin Hp. inversion Hnd as [|? ? Hs0 Hsts]; subst.
  fold (join_on sts latest). rewrite !filter_app, map_app.
  rewrite (filter_pair _ _ p).
  destruct Hin as [->|Hin].
  - rewrite Hp, (filter_pair _ _ (same_group s)).
    rewrite (proj2 (same_group_spec s s) eq_refl).
    rewrite map_map, map_id. cbn [snd].
    rewrite (filter_none _ (fun kv => same_group s (fst kv))
               (filter _ (join_on sts latest))); [now rewrite app_nil_r|].
    intros [s' lm] H. apply filter_In in H as [H _].
    apply join_on_In in H as (H & _). cbn.
    destruct (same_group s s') eqn:E; [|reflexivity].
    apply same_group_spec in E. now subst s'.
  - assert (N : same_group s s0 = false).
    { destruct (same_group s s0) eqn:E; [|reflexivity].
      apply same_group_spec in E. now subst s0. }
    destruct (p s0).
    + rewrite (filter_pair _ _ (same_group s)), N. cbn [map app]. now apply IH.
    + cbn [filter map app]. now apply IH.
Qed.

(** With unique station identifiers and at most one row of [latest] per
    station, the join has at most one row per station. *)
Lemma join_on_NoDup (sts : list StationRow) (latest : list MeasurementRow)
    (p : StationRow * MeasurementRow -> bool) :
  NoDup (map s_station_id sts) ->
  ForallOrdPairs (fun a b => same_station a b = false) latest ->
  NoDup (map (fun sl => s_station_id (fst sl)) (filter p (join_on sts latest))).
Proof.
  intros Hnd Hl. induction sts as [|s sts IH]; cbn [join_on flat_map];
    [constructor|].
  inversion Hnd as [|? ? Hs Hsts]; subst. fold (join_on sts latest).
  rewrite filter_app, map_app. apply NoDup_app.
  - set (L := filter (fun lm => m_station_id lm =? s_station_id s) latest).
    assert (HL : (List.length L <= 1)%nat).
    { apply pairwise_at_most_one
        with (R := fun a b => same_station a b = false).
      - now apply ForallOrdPairs_filter.
      - intros a b Ha Hb. subst L.
        apply filter_In in Ha as [_ Ha]. apply filter_In in Hb as [_ Hb].
        apply String.eqb_eq in Ha, Hb. unfold same_station.
        rewrite Ha, Hb, String.eqb_refl. discriminate. }
    destruct L as [|a [|b L]]; cbn in HL; try lia; cbn.
    + constructor.
    + destruct (p (s, a)); cbn; repeat constructor; auto.
  - now apply IH.
  - intros id H1 H2. apply Hs.
    apply in_map_iff in H1 as ([s1 lm1] & <- & H1).
    apply filter_In in H1 as [H1 _]. apply in_map_iff in H1 as (? & [= <- <-] & _).
    apply in_map_iff in H2 as ([s2 lm2] & E & H2).
    apply filter_In in H2 as [H2 _]. apply join_on_In in H2 as (H2 & _).
    cbn in E |- *. rewrite <- E. now apply in_map.
Qed.


(** ORDER BY over a table does not depend on the heap order of the rows when
    the rows it sorts have pairwise distinct timestamps. *)
Lemma order_by_ts_heap_order (le : MeasurementRow -> MeasurementRow -> bool)
    (p : MeasurementRow -> bool) (rows rows' : list MeasurementRow) :
  (forall a b, le a b = true \/ le b a = true) ->
  (forall a b c, le a b = true -> le b c = true -> le a c = true) ->
  (forall a b, le a b = true -> le b a = true -> m_ts a = m_ts b) ->
  Permutation rows rows' ->
  NoDup (map m_ts (filter p rows)) ->
  order_by le (filter p rows) = order_by le (filter p rows').
Proof.
  intros Htot Htrans Hts P Hnd.
  apply sorted_unique with (R := fun a b => le a b = true).
  - intros a b Ha Hb Hab Hba.
    apply order_by_In in Ha, Hb.
    apply (NoDup_map_eq _ _ m_ts (filter p rows)); auto.
  - now apply order_by_sorted.
  - now apply order_by_sorted.
  - rewrite <- !order_by_perm. now apply filter_Permutation.
Qed.

(** *** The flag [latest_per_station] *)

(** C1: whatever the parameters and the datastore, [list_measurements] with
    [latest_per_station] true hands the same statement and parameters to the
    datastore and ends in the same result as with the flag false; the one
    statement executed is the plain query, never the latest-per-station one. *)
Theorem latest_per_station_is_inert :
  forall limit offset station_id country pollutant env,
    list_measurements limit offset station_id country pollutant true env
    = list_measurements limit offset station_id country pollutant false env
    /\ forall flag, exists sql params filters,
         fst (list_measurements limit offset station_id country pollutant
                flag env) = [(sql, params)]
         /\ plan sql = PlainSelect filters.
Proof.
  intros limit offset station_id country pollutant env. split.
  - reflexivity.
  - intros flag. unfold list_measurements, bind, execute, ret.
    cbv zeta. cbn [plan].
    destruct (run_plan _ _ _); cbn [fst app];
      do 3 eexists; split; reflexivity.
Qed.

(** *** Filters given as the empty string *)

(** C10: a filter supplied as the empty string is dropped: the call behaves
    as the same call without that parameter, in [list_measurements]
    (station_id, country, pollutant) and in [list_stations] and
    [list_stations_wkt] (country, pollutant). *)
Theorem empty_filter_is_dropped :
  (forall limit offset station_id country pollutant flag,
      list_measurements limit offset (Some "") country pollutant flag
      = list_measurements limit offset None country pollutant flag
      /\ list_measurements limit offset station_id (Some "") pollutant flag
         = list_measurements limit offset station_id None pollutant flag
      /\ list_measurements limit offset station_id country (Some "") flag
         = list_measurements limit offset station_id country None flag)
  /\ (forall country pollutant,
         list_stations (Some "") pollutant = list_stations None pollutant
         /\ list_stations country (Some "") = list_stations country None)
  /\ (forall country pollutant,
         list_stations_wkt (Some "") pollutant = list_stations_wkt None pollutant
         /\ list_stations_wkt country (Some "") = list_stations_wkt country None).
Proof.
  repeat split; reflexivity.
Qed.

(** *** Validation of the query string *)

(** C8: a request to /measurements whose limit is outside [1,500] or whose
    offset is negative, and a request to /measurements/timeseries whose hours
    is outside [1,168], ends in a validation error that names the offending
    parameter, and no statement reaches the datastore; an absent limit is
    100, an absent offset 0, an absent hours 24. *)
Theorem out_of_range_is_rejected :
  (forall q env,
      let bad_limit := exists v, q_limit q = Some v /\ (v < 1 \/ 500 < v) in
      let bad_offset := exists v, q_offset q = Some v /\ v < 0 in
      bad_limit \/ bad_offset ->
      exists errors,
        get_measurements q env = ([], RequestValidationError errors)
        /\ (bad_limit -> In ["query"; "limit"] (map loc errors))
        /\ (bad_offset -> In ["query"; "offset"] (map loc errors)))
  /\ (forall q env v,
         t_hours q = Some v -> v < 1 \/ 168 < v ->
         exists errors,
           get_measurements_timeseries q env
           = ([], RequestValidationError errors)
           /\ In ["query"; "hours"] (map loc errors))
  /\ (forall offset station_id country pollutant flag,
         get_measurements
           {| q_limit := None; q_offset := offset; q_station_id := station_id;
              q_country := country; q_pollutant := pollutant;
              q_latest_per_station := flag |}
         = get_measurements
             {| q_limit := Some 100; q_offset := offset;
                q_station_id := station_id; q_country := country;
                q_pollutant := pollutant; q_latest_per_station := flag |})
  /\ (forall limit station_id country pollutant flag,
         get_measurements
           {| q_limit := limit; q_offset := None; q_station_id := station_id;
              q_country := country; q_pollutant := pollutant;
              q_latest_per_station := flag |}
         = get_measurements
             {| q_limit := limit; q_offset := Some 0;
                q_station_id := station_id; q_country := country;
                q_pollutant := pollutant; q_latest_per_station := flag |})
  /\ (forall station_id pollutant,
         get_measurements_timeseries
           {| t_station_id := station_id; t_pollutant := pollutant;
              t_hours := None |}
         = get_measurements_timeseries
             {| t_station_id := station_id; t_pollutant := pollutant;
                t_hours := Some 24 |}).
Proof.
  split; [|split; [|split; [|split]]].
  - intros q env bad_limit bad_offset H.
    unfold get_measurements, check_int, limit_query, offset_query, reject.
    cbn [Query.ge Query.le Query.default].
    destruct (q_limit q) as [l|] eqn:El; destruct (q_offset q) as [o|] eqn:Eo;
      subst bad_limit bad_offset.
    + destruct (Z.ltb_spec l 1); [|destruct (Z.ltb_spec 500 l)];
        destruct (Z.ltb_spec o 0); cbn [errors_of app];
        try (eexists; split; [reflexivity|];
             split; intros (v & Ev & Hv); inversion Ev; subst;
             cbn; auto; lia).
      exfalso. destruct H as [(v & Ev & Hv)|(v & Ev & Hv)];
        inversion Ev; subst; lia.
    + destruct (Z.ltb_spec l 1); [|destruct (Z.ltb_spec 500 l)];
        cbn [errors_of app];
        try (eexists; split; [reflexivity|];
             split; intros (v & Ev & Hv); inversion Ev; subst;
             cbn; auto; lia).
      exfalso. destruct H as [(v & Ev & Hv)|(v & Ev & Hv)];
        inversion Ev; subst; lia.
    + destruct (Z.ltb_spec o 0); cbn [errors_of app];
        try (eexists; split; [reflexivity|];
             split; intros (v & Ev & Hv); inversion Ev; subst;
             cbn; auto; lia).
      exfalso. destruct H as [(v & Ev & Hv)|(v & Ev & Hv)];
        inversion Ev; subst; lia.
    + exfalso. destruct H as [(v & Ev & Hv)|(v & Ev & Hv)]; discriminate.
  - intros q env v Ev Hv.
    unfold get_measurements_timeseries, check_int, check_required, hours_query,
      reject.
    cbn [Query.ge Query.le Query.default]. rewrite Ev.
    destruct (Z.ltb_spec v 1); [|destruct (Z.ltb_spec 168 v); [|lia]];
      destruct (t_station_id q), (t_pollutant q); cbn [errors_of app];
        eexists; (split; [reflexivity|]); cbn; auto.
  - reflexivity.
  - reflexivity.
  - reflexivity.
Qed.

(** *** The time series *)

(** C2: when no row of the station and pollutant lies in the window, the
    time series fails with 404 and the message of the source; when at least
    one does, it succeeds with as many points; it never succeeds with an
    empty list. *)
Theorem timeseries_empty_is_not_found :
  forall station_id pollutant hours env,
    let matching :=
      filter (series_matches station_id pollutant
                (clock env - timedelta_hours hours))
             (measurements (store env)) in
    let outcome :=
      snd (measurements_timeseries station_id pollutant hours env) in
    (matching = [] ->
     outcome = HTTPException 404 "No measurements for given station/pollutant")
    /\ (matching <> [] ->
        exists points,
          outcome = Ok points /\ List.length points = List.length matching)
    /\ outcome <> Ok [].
Proof.
  intros station_id pollutant hours env matching outcome.
  subst outcome. rewrite timeseries_outcome. fold matching.
  pose proof (order_by_perm _ ts_asc matching) as P.
  destruct (order_by ts_asc matching) as [|r rows] eqn:E.
  - repeat split; [|discriminate].
    intros Hne. apply Permutation_sym, Permutation_nil in P. contradiction.
  - repeat split; [| |discriminate].
    + intros Hnil. rewrite Hnil in P. apply Permutation_nil in P. discriminate.
    + intros _. eexists. split; [reflexivity|].
      rewrite length_map. symmetry. now apply Permutation_length.
Qed.

(** C3: the points of a successful time series all carry the requested
    station and pollutant and a timestamp not older than [now - hours], and
    come oldest first; with rows at now-1h, now-5h and now-30h of station
    NL01491 and pollutant pm25 and hours = 24, the answer is the now-5h row
    followed by the now-1h row. *)
Theorem timeseries_window_sorted :
  (forall station_id pollutant hours env points,
      snd (measurements_timeseries station_id pollutant hours env) = Ok points ->
      Forall (fun p =>
                TimePoint.station_id p = station_id
                /\ TimePoint.pollutant p = pollutant
                /\ clock env - timedelta_hours hours <= TimePoint.timestamp p)
             points
      /\ StronglySorted
           (fun a b => TimePoint.timestamp a <= TimePoint.timestamp b) points)
  /\ (forall now r1 r5 r30 stations,
         m_station_id r1 = "NL01491" -> m_pollutant r1 = "pm25" ->
         m_station_id r5 = "NL01491" -> m_pollutant r5 = "pm25" ->
         m_station_id r30 = "NL01491" -> m_pollutant r30 = "pm25" ->
         m_ts r1 = now - timedelta_hours 1 ->
         m_ts r5 = now - timedelta_hours 5 ->
         m_ts r30 = now - timedelta_hours 30 ->
         snd (measurements_timeseries "NL01491" "pm25" 24
                {| clock := now;
                   store := {| measurements := [r1; r5; r30];
                               stations := stations |} |})
         = Ok [timepoint_of_row r5; timepoint_of_row r1]).
Proof.
  split.
  - intros station_id pollutant hours env points.
    rewrite timeseries_outcome.
    set (matching := filter _ _).
    pose proof (order_by_sorted _ ts_asc ts_asc_total ts_asc_trans matching)
      as S.
    assert (I : forall r, In r (order_by ts_asc matching) ->
                series_matches station_id pollutant
                  (clock env - timedelta_hours hours) r = true).
    { intros r Hr. apply order_by_In in Hr. subst matching.
      apply filter_In in Hr. tauto. }
    destruct (order_by ts_asc matching) as [|r rows]; [discriminate|].
    intros [= <-].
    change (timepoint_of_row r :: map timepoint_of_row rows)
      with (map timepoint_of_row (r :: rows)).
    split.
    + apply Forall_map, Forall_forall. intros x Hx. apply I in Hx.
      unfold series_matches in Hx.
      apply andb_prop in Hx as [Hx Ht]. apply andb_prop in Hx as [Hs Hp].
      apply String.eqb_eq in Hs, Hp. apply Z.leb_le in Ht. now cbn.
    + eapply StronglySorted_map; [|exact S].
      intros a b Hab. cbn. now apply Z.leb_le.
  - intros now r1 r5 r30 stations Hs1 Hp1 Hs5 Hp5 Hs30 Hp30 Ht1 Ht5 Ht30.
    rewrite timeseries_outcome. cbn [clock store measurements filter].
    unfold series_matches.
    rewrite Hs1, Hp1, Hs5, Hp5, Hs30, Hp30, Ht1, Ht5, Ht30.
    rewrite !String.eqb_refl. unfold timedelta_hours. cbn [andb].
    destruct (Z.leb_spec (now - 24 * 3600000000) (now - 1 * 3600000000));
      [|lia].
    destruct (Z.leb_spec (now - 24 * 3600000000) (now - 5 * 3600000000));
      [|lia].
    destruct (Z.leb_spec (now - 24 * 3600000000) (now - 30 * 3600000000));
      [lia|].
    cbn [order_by fold_right insert_sorted]. unfold ts_asc.
    rewrite Ht1, Ht5. unfold timedelta_hours.
    destruct (Z.leb_spec (now - 1 * 3600000000) (now - 5 * 3600000000));
      [lia|].
    reflexivity.
Qed.

(** *** The plain listing *)


Lemma considered_unfiltered (pollutant : option string) (m : MeasurementRow) :
  truthy pollutant = false -> considered pollutant m = true.
Proof.
  unfold considered, passes, truthy. destruct pollutant as [p|]; [|reflexivity].
  destruct (p =? ""); [reflexivity|discriminate].
Qed.

Lemma considered_same_pollutant (pollutant : option string)
    (m m' : MeasurementRow) :
  m_pollutant m' = m_pollutant m ->
  considered pollutant m = true -> considered pollutant m' = true.
Proof. unfold considered. now intros ->. Qed.

Lemma station_passes_located (country : option string) (s : StationRow) :
  station_passes country s = true ->
  exists lon lat, s_lon s = Some lon /\ s_lat s = Some lat.
Proof.
  unfold station_passes. destruct (s_lat s), (s_lon s); try discriminate. eauto.
Qed.

(** An output built from a station with coordinates is not the output of a
    station without, when station identifiers are unique. *)
Lemma located_excludes (db : Database) (outputs : list Json)
    (station_id : Json -> Json) (shown : Json -> num -> num -> Prop) :
  (forall o, In o outputs -> located db (station_id o) (shown o)) ->
  NoDup (map s_station_id (stations db)) ->
  forall s, In s (stations db) -> s_lat s = None \/ s_lon s = None ->
            ~ In (JStr (s_station_id s)) (map station_id outputs).
Proof.
  intros Hloc Hnd s Hs Hnull Hin.
  apply in_map_iff in Hin as (o & E & Ho).
  destruct (Hloc o Ho) as (s' & lon & lat & Hs' & Hlon & Hlat & E' & _).
  rewrite E' in E. injection E as E.
  assert (s' = s) by (eapply NoDup_map_eq; eauto). subst s'.
  destruct Hnull; congruence.
Qed.

(** *** The two station endpoints *)

(** C7: every feature of /stations and every object of /stations_wkt is
    built from a station whose latitude and longitude are both present: the
    coordinates of a feature are two numbers, never null, and the WKT point
    prints two numbers; with unique station identifiers, a station without
    latitude or longitude appears in neither answer. *)
Theorem null_coordinates_are_excluded :
  forall country pollutant env,
    (exists features,
        snd (list_stations country pollutant env)
        = Ok (JObj [("type", JStr "FeatureCollection");
                    ("features", JArr features)])
        /\ (forall f, In f features ->
              located (store env) (property f "station_id")
                (fun lon lat => coordinates f = JArr [JNum lon; JNum lat]))
        /\ (NoDup (map s_station_id (stations (store env))) ->
            forall s, In s (stations (store env)) ->
                      s_lat s = None \/ s_lon s = None ->
                      ~ In (JStr (s_station_id s))
                           (map (fun f => property f "station_id") features)))
    /\ (exists objects,
           snd (list_stations_wkt country pollutant env) = Ok objects
           /\ (forall o, In o objects ->
                 located (store env) (json_get o "station_id")
                   (fun lon lat =>
                      json_get o "wkt"
                      = JStr ("POINT(" ++ num_str lon ++ " " ++ num_str lat
                              ++ ")")%string))
           /\ (NoDup (map s_station_id (stations (store env))) ->
               forall s, In s (stations (store env)) ->
                         s_lat s = None \/ s_lon s = None ->
                         ~ In (JStr (s_station_id s))
                              (map (fun o => json_get o "station_id")
                                   objects))).
Proof.
  intros country pollutant env. split.
  - rewrite list_stations_outcome. eexists. split; [reflexivity|].
    match goal with |- ?L /\ _ => assert (H : L) end.
    { intros f Hf. apply in_map_iff in Hf as ([s lm] & <- & Hf).
      apply filter_In in Hf as [Hf Hp]. apply join_on_In in Hf as (Hs & _).
      cbn [fst] in Hp.
      apply station_passes_located in Hp as (lon & lat & Hlon & Hlat).
      exists s, lon, lat. repeat split; try assumption.
      unfold coordinates. cbn. now rewrite Hlon, Hlat. }
    split; [exact H|]. intros Hnd.
    exact (located_excludes (store env) _ (fun f => property f "station_id")
             _ H Hnd).
  - rewrite list_stations_wkt_outcome. eexists. split; [reflexivity|].
    match goal with |- ?L /\ _ => assert (H : L) end.
    { intros o Ho. apply in_flat_map in Ho as ([s latest] & Hg & Ho).
      unfold wkt_object_of in Ho.
      destruct (s_lon s) as [lon|] eqn:Hlon; [|contradiction].
      destruct (s_lat s) as [lat|] eqn:Hlat; [|contradiction].
      destruct Ho as [<-|[]].
      unfold group_by in Hg. apply in_map_iff in Hg as (k & [= -> _] & Hk).
      apply distinct_on_In in Hk. apply in_map_iff in Hk as ([s' lm] & E & Hk).
      cbn in E. subst s'. apply filter_In in Hk as [Hk _].
      apply join_on_In in Hk as (Hs & _).
      exists s, lon, lat. repeat split; assumption. }
    split; [exact H|]. intros Hnd.
    exact (located_excludes (store env) _ (fun o => json_get o "station_id")
             _ H Hnd).
Qed.

(** C6: with unique station identifiers a station has at most one feature in
    the answer of /stations; a feature carries one pollutant, value, unit and
    timestamp, those of a reading of its station that no other considered
    reading of the station is newer than, where every reading is considered
    when no pollutant filter is supplied and only those of the pollutant
    otherwise; and every station that has both coordinates, passes the
    country filter and has a considered reading is shown, with the latest of
    its considered readings: the pollutant filter applies before the
    ranking. *)
Theorem stations_show_one_latest :
  forall country pollutant env,
    exists features,
      snd (list_stations country pollutant env)
      = Ok (JObj [("type", JStr "FeatureCollection");
                  ("features", JArr features)])
      /\ (NoDup (map s_station_id (stations (store env))) ->
          NoDup (map (fun f => property f "station_id") features))
      /\ (forall f, In f features ->
                    shows_latest_of_station (store env) pollutant f)
      /\ (forall s, eligible (store env) country pollutant s ->
                    exists f, In f features
                              /\ shows_latest_reading (store env) pollutant s f).
Proof.
  intros country pollutant env.
  rewrite list_stations_outcome. eexists. split; [reflexivity|].
  split; [|split].
  - intros Hnd. rewrite map_map.
    rewrite (map_ext _ (fun sl => JStr (s_station_id (fst sl))))
      by (intros [s lm]; reflexivity).
    rewrite <- (map_map (fun sl => s_station_id (fst sl)) JStr).
    apply NoDup_map_inj; [congruence|].
    apply join_on_NoDup; [assumption|].
    apply distinct_on_pairwise.
  - intros f Hf. apply in_map_iff in Hf as ([s lm] & <- & Hf).
    apply filter_In in Hf as [Hf _].
    apply join_on_In in Hf as (Hs & Hlm & E).
    pose proof (latest_per_station_id_In _ _ Hlm) as Hin.
    apply filter_In in Hin as [Hin Hc].
    exists s, lm. repeat split; try assumption; try reflexivity.
    intros m' Hm' E' Hc'.
    apply (latest_per_station_id_max _ _ _ Hlm); [|congruence].
    apply filter_In. auto.
  - intros s (Hs & Hp & m & Hm & E & Hc).
    destruct (latest_per_station_id_covers
                (filter (considered pollutant) (measurements (store env))) m)
      as (lm & Hlm & E'); [apply filter_In; auto|].
    exists (feature_of (s, lm)). split.
    + apply in_map. apply filter_In. split; [|exact Hp].
      apply join_on_In. repeat split; try assumption. congruence.
    + pose proof (latest_per_station_id_In _ _ Hlm) as Hin.
      apply filter_In in Hin as [Hin Hc'].
      exists lm. repeat split; try assumption; try reflexivity; [congruence|].
      intros m' Hm' Em' Hcm'.
      apply (latest_per_station_id_max _ _ _ Hlm); [|congruence].
      apply filter_In. auto.
Qed.

(** C5: when no row of [stations] is stored twice (station_id is its primary
    key), the measurements array of an object of /stations_wkt has one entry
    for each pollutant its station has considered readings of, the entry of
    a reading that none of the same station and pollutant is newer than; for
    a station with readings of exactly two pollutants and no pollutant
    filter, it has two entries. *)
Theorem stations_wkt_show_latest_per_pollutant :
  forall country pollutant env objects o,
    NoDup (stations (store env)) ->
    snd (list_stations_wkt country pollutant env) = Ok objects ->
    In o objects ->
    shows_latest_per_pollutant (store env) pollutant o.
Proof.
  intros country pollutant env objects o Hnd Hout Ho.
  rewrite list_stations_wkt_outcome in Hout. injection Hout as <-.
  apply in_flat_map in Ho as ([s lms] & Hg & Ho).
  unfold wkt_object_of in Ho.
  destruct (s_lon s) as [lon|] eqn:Hlon; [|contradiction].
  destruct (s_lat s) as [lat|] eqn:Hlat; [|contradiction].
  destruct Ho as [<-|[]].
  unfold group_by in Hg. apply in_map_iff in Hg as (k & [= -> <-] & Hk).
  apply distinct_on_In in Hk. apply in_map_iff in Hk as ([s' lm0] & E & Hk).
  cbn in E. subst s'. apply filter_In in Hk as [Hk Hp]. cbn in Hp.
  apply join_on_In in Hk as (Hs & _).
  rewrite (join_rows_of_station _ _ (station_passes country) s Hnd Hs Hp).
  set (F := filter (considered pollutant) (measurements (store env))).
  set (L := filter (fun lm => m_station_id lm =? s_station_id s)
              (latest_per_station_pollutant F)).
  assert (HL : forall m, In m L ->
             In m (latest_per_station_pollutant F)
             /\ m_station_id m = s_station_id s).
  { intros m Hm. apply filter_In in Hm as [Hm E]. now apply String.eqb_eq in E. }
  assert (P : latest_per_pollutant (store env) pollutant s L).
  { split; [|split].
    - apply pairwise_NoDup_map
        with (R := fun a b => same_station_pollutant a b = false).
      + apply ForallOrdPairs_filter, distinct_on_pairwise.
      + intros a b Ha Hb R Eab. apply HL in Ha as [_ Ha], Hb as [_ Hb].
        assert (same_station_pollutant a b = true); [|congruence].
        apply same_station_pollutant_iff. split; congruence.
    - intros m Hm. apply HL in Hm as [Hm Em].
      pose proof (latest_per_station_pollutant_In _ _ Hm) as Hin.
      apply filter_In in Hin as [Hin Hc].
      repeat split; try assumption.
      intros m' Hm' Es Ep.
      apply (latest_per_station_pollutant_max _ _ _ Hm); try congruence.
      apply filter_In. split; [assumption|].
      now apply considered_same_pollutant with m.
    - intros m Hm Em Hc.
      destruct (latest_per_station_pollutant_covers F m)
        as (lm & Hlm & Es & Ep).
      { apply filter_In. auto. }
      rewrite <- Ep. apply in_map. apply filter_In. split; [assumption|].
      apply String.eqb_eq. congruence. }
  exists s, L.
  split; [assumption|]. split; [reflexivity|]. split; [reflexivity|].
  split; [exact P|].
  intros p1 p2 Hne Hno (m1 & Hm1 & Es1 & Ep1) (m2 & Hm2 & Es2 & Ep2) Hall.
  rewrite length_map, <- (length_map m_pollutant).
  destruct P as (Pnd & Pin & Pcov).
  apply NoDup_two with (a := p1) (b := p2); try assumption.
  - rewrite <- Ep1. apply Pcov; auto using considered_unfiltered.
  - rewrite <- Ep2. apply Pcov; auto using considered_unfiltered.
  - intros x Hx. apply in_map_iff in Hx as (m & <- & Hm).
    destruct (Pin m Hm) as (Hin & Es & _). now apply Hall.
Qed.

(** *** Determinism *)

Lemma then_by_key (A : Type) (key : A -> string) (rest : A -> A -> bool)
    (a b : A) :
  then_by key rest a b = true -> then_by key rest b a = true ->
  key a = key b /\ rest a b = true /\ rest b a = true.
Proof.
  unfold then_by. rewrite (String.compare_antisym (key a) (key b)).
  destruct (String.compare (key b) (key a)) eqn:E; cbn; try discriminate.
  apply String_as_OT.cmp_eq in E. auto.
Qed.

Lemma ts_desc_key (a b : MeasurementRow) :
  ts_desc a b = true -> ts_desc b a = true -> m_ts a = m_ts b.
Proof. unfold ts_desc. rewrite !Z.leb_le. lia. Qed.

Lemma latest_per_station_id_heap_order (rows rows' : list MeasurementRow) :
  Permutation rows rows' ->
  NoDup (map (fun r => (m_station_id r, m_ts r)) rows) ->
  latest_per_station_id rows = latest_per_station_id rows'.
Proof.
  intros P Hnd. unfold latest_per_station_id. f_equal.
  apply (order_by_heap_order _ _ station_ts_desc
           (fun r => (m_station_id r, m_ts r))
           station_ts_desc_total station_ts_desc_trans); try assumption.
  intros a b Hab Hba.
  destruct (then_by_key _ _ _ _ _ Hab Hba) as (-> & H1 & H2).
  now rewrite (ts_desc_key _ _ H1 H2).
Qed.

Lemma latest_per_station_pollutant_heap_order
    (rows rows' : list MeasurementRow) :
  Permutation rows rows' ->
  NoDup (map (fun r => (m_station_id r, m_pollutant r, m_ts r)) rows) ->
  latest_per_station_pollutant rows = latest_per_station_pollutant rows'.
Proof.
  intros P Hnd. unfold latest_per_station_pollutant. f_equal.
  apply (order_by_heap_order _ _ station_pollutant_ts_desc
           (fun r => (m_station_id r, m_pollutant r, m_ts r))
           station_pollutant_ts_desc_total station_pollutant_ts_desc_trans);
    try assumption.
  intros a b Hab Hba.
  destruct (then_by_key _ _ _ _ _ Hab Hba) as (-> & H1 & H2).
  destruct (then_by_key _ _ _ _ _ H1 H2) as (-> & H3 & H4).
  now rewrite (ts_desc_key _ _ H3 H4).
Qed.

Lemma join_on_Permutation (sts sts' : list StationRow)
    (latest : list MeasurementRow) :
  Permutation sts sts' ->
  Permutation (join_on sts latest) (join_on sts' latest).
Proof. intros P. unfold join_on. now rewrite P. Qed.

(** The groups of the join, when no row of [stations] is stored twice: one
    for every station that passes the WHERE clause and has rows in the CTE,
    in the order of [stations]. *)
Lemma group_by_join (sts : list StationRow) (latest : list MeasurementRow)
    (p : StationRow -> bool) :
  NoDup sts ->
  group_by same_group
    (filter (fun sl => p (fst sl)) (join_on sts latest))
  = map (fun s => (s, filter (fun lm => m_station_id lm =? s_station_id s)
                             latest))
        (filter (fun s => p s
                          && match filter (fun lm => m_station_id lm
                                                     =? s_station_id s)
                                          latest with
                             | [] => false
                             | _ => true
                             end)
                sts).
Proof.
  intros Hnd. unfold group_by.
  set (L := fun s => filter (fun lm => m_station_id lm =? s_station_id s) latest).
  assert (K : forall l, NoDup l -> incl l sts ->
            distinct_on same_group
              (map fst (filter (fun sl => p (fst sl)) (join_on l latest)))
            = filter (fun s => p s && match L s with [] => false | _ => true end)
                     l).
  { induction l as [|s l IH]; intros Hl Hincl; [reflexivity|].
    inversion Hl as [|? ? Hs Hl']; subst.
    cbn [join_on flat_map]. fold (join_on l latest). fold (L s).
    rewrite filter_app, map_app, filter_pair.
    assert (Hrest : forall x,
              In x (distinct_on same_group
                      (map fst (filter (fun sl => p (fst sl))
                                       (join_on l latest)))) ->
              negb (same_group s x) = true).
    { intros x Hx. apply distinct_on_In, in_map_iff in Hx as ([s' lm] & <- & Hx).
      apply filter_In in Hx as [Hx _]. apply join_on_In in Hx as (Hx & _).
      cbn. destruct (same_group s s') eqn:E; [|reflexivity].
      apply same_group_spec in E. now subst. }
    cbn [filter]. destruct (p s); cbn [andb map app].
    - rewrite map_map. cbn [fst].
      rewrite (distinct_on_run _ same_group
                 (fun a => proj2 (same_group_spec a a) eq_refl)).
      destruct (L s); [apply IH; [assumption|intros x Hx; apply Hincl; now right]|].
      rewrite filter_all by assumption. f_equal.
      apply IH; [assumption|intros x Hx; apply Hincl; now right].
    - apply IH; [assumption|intros x Hx; apply Hincl; now right]. }
  rewrite K by (try assumption; apply incl_refl).
  apply map_ext_in. intros s Hs. apply filter_In in Hs as [Hs Hp].
  apply andb_prop in Hp as [Hp _]. f_equal.
  now apply join_rows_of_station.
Qed.

Lemma wkt_object_has_entries (g : StationRow * list MeasurementRow) (o : Json) :
  In o (wkt_object_of g) -> same_object o o.
Proof.
  destruct g as [s lms]. unfold wkt_object_of.
  destruct (s_lon s), (s_lat s); try contradiction.
  intros [<-|[]]. split; [reflexivity|].
  do 2 eexists. split; [reflexivity|]. split; [reflexivity|]. reflexivity.
Qed.

Lemma list_stations_calls country pollutant env env' :
  fst (list_stations country pollutant env)
  = fst (list_stations country pollutant env').
Proof. reflexivity. Qed.

Lemma list_stations_wkt_calls country pollutant env env' :
  fst (list_stations_wkt country pollutant env)
  = fst (list_stations_wkt country pollutant env').
Proof. reflexivity. Qed.

(** C9, amended: the heap order of a table stands for the order in which
    the engine happens to read its rows, which an unchanged datastore does
    not fix.  On two datastores holding the same rows, a listing and a time
    series (at the same instant) give the same calls and the same answer
    when the rows the statement selects have pairwise distinct timestamps.
    The statements of /stations and /stations_wkt have no outer ORDER BY:
    the two answers hold the same features when no two considered readings
    of a station share a timestamp, and the same objects up to the order of
    the entries of their measurements arrays when no row of [stations] is
    stored twice and no two considered readings of a station and pollutant
    share a timestamp, but in an order that the rows do not determine. *)
Theorem responses_up_to_row_order :
  forall env env',
    Permutation (measurements (store env)) (measurements (store env')) ->
    Permutation (stations (store env)) (stations (store env')) ->
    (forall limit offset station_id country pollutant flag,
        NoDup (map m_ts
                 (filter (matches_filters station_id country pollutant)
                         (measurements (store env)))) ->
        list_measurements limit offset station_id country pollutant flag env
        = list_measurements limit offset station_id country pollutant flag
            env')
    /\ (forall station_id pollutant hours,
           clock env = clock env' ->
           NoDup (map m_ts
                    (filter (series_matches station_id pollutant
                               (clock env - timedelta_hours hours))
                            (measurements (store env)))) ->
           measurements_timeseries station_id pollutant hours env
           = measurements_timeseries station_id pollutant hours env')
    /\ (forall country pollutant,
           NoDup (map (fun r => (m_station_id r, m_ts r))
                    (filter (considered pollutant)
                            (measurements (store env)))) ->
           fst (list_stations country pollutant env)
           = fst (list_stations country pollutant env')
           /\ exists features features',
                snd (list_stations country pollutant env)
                = Ok (JObj [("type", JStr "FeatureCollection");
                            ("features", JArr features)])
                /\ snd (list_stations country pollutant env')
                   = Ok (JObj [("type", JStr "FeatureCollection");
                               ("features", JArr features')])
                /\ Permutation features features')
    /\ (forall country pollutant,
           NoDup (stations (store env)) ->
           NoDup (map (fun r => (m_station_id r, m_pollutant r, m_ts r))
                    (filter (considered pollutant)
                            (measurements (store env)))) ->
           fst (list_stations_wkt country pollutant env)
           = fst (list_stations_wkt country pollutant env')
           /\ exists objects objects' reordered,
                snd (list_stations_wkt country pollutant env) = Ok objects
                /\ snd (list_stations_wkt country pollutant env')
                   = Ok objects'
                /\ Permutation objects' reordered
                /\ Forall2 same_object objects reordered).
Proof.
  intros env env' Pm Ps. split; [|split; [|split]].
  - intros limit offset station_id country pollutant flag Hnd.
    apply injective_projections; [apply list_measurements_calls|].
    rewrite !list_measurements_outcome.
    rewrite (order_by_ts_heap_order ts_desc
               (matches_filters station_id country pollutant)
               (measurements (store env)) (measurements (store env'))
               ts_desc_total ts_desc_trans);
      [reflexivity|exact ts_desc_key|exact Pm|exact Hnd].
  - intros station_id pollutant hours Ec Hnd.
    apply injective_projections; [now apply timeseries_calls|].
    rewrite !timeseries_outcome. rewrite <- Ec.
    rewrite (order_by_ts_heap_order ts_asc
               (series_matches station_id pollutant
                  (clock env - timedelta_hours hours))
               (measurements (store env)) (measurements (store env'))
               ts_asc_total ts_asc_trans);
      [reflexivity| |exact Pm|exact Hnd].
    unfold ts_asc. intros a b. rewrite !Z.leb_le. lia.
  - intros country pollutant Hnd. split; [apply list_stations_calls|].
    rewrite !list_stations_outcome. do 2 eexists.
    split; [reflexivity|]. split; [reflexivity|].
    rewrite (latest_per_station_id_heap_order _
               (filter (considered pollutant) (measurements (store env'))))
      by (try assumption; now apply filter_Permutation).
    apply Permutation_map, filter_Permutation. now apply join_on_Permutation.
  - intros country pollutant Hst Hnd. split; [apply list_stations_wkt_calls|].
    rewrite !list_stations_wkt_outcome.
    rewrite (latest_per_station_pollutant_heap_order _
               (filter (considered pollutant) (measurements (store env'))))
      by (try assumption; now apply filter_Permutation).
    rewrite !group_by_join
      by (try assumption; now apply (Permutation_NoDup Ps)).
    do 3 eexists. split; [reflexivity|]. split; [reflexivity|]. split.
    + apply Permutation_sym.
      apply (Permutation_flat_map wkt_object_of).
      apply Permutation_map, filter_Permutation. exact Ps.
    + apply Forall2_diag. intros o Ho.
      apply in_flat_map in Ho as (g & _ & Ho).
      exact (wkt_object_has_entries g o Ho).
Qed.
End Properties.

(** ** The properties at work on [sample_db] *)


(** Station A has readings of two pollutants: its object carries the latest
    reading of each. *)
Lemma stations_wkt_witness :
  shows_latest_per_pollutant sample_db None sample_wkt_A.
Proof.
  apply (stations_wkt_show_latest_per_pollutant None None sample_env
           [sample_wkt_B; sample_wkt_A] sample_wkt_A).
  - repeat constructor; cbn; intuition discriminate.
  - vm_compute. reflexivity.
  - cbn. auto.
Defined.

(** No station Z: the time series is not found. *)
Lemma timeseries_not_found_witness :
  snd (measurements_timeseries "Z" "pm25" 24 sample_env)
  = HTTPException 404 "No measurements for given station/pollutant".
Proof.
  apply (proj1 (timeseries_empty_is_not_found "Z" "pm25" 24 sample_env)).
  reflexivity.
Defined.

(** The example of the specification, 40 hours after the epoch. *)
Lemma timeseries_window_witness :
  snd (measurements_timeseries "NL01491" "pm25" 24 series_env)
  = Ok [timepoint_of_row
          (reading "NL01491" "pm25" 12 (series_now - timedelta_hours 5));
        timepoint_of_row
          (reading "NL01491" "pm25" 11 (series_now - timedelta_hours 1))].
Proof.
  apply (proj2 timeseries_window_sorted series_now
           (reading "NL01491" "pm25" 11 (series_now - timedelta_hours 1))
           (reading "NL01491" "pm25" 12 (series_now - timedelta_hours 5))
           (reading "NL01491" "pm25" 13 (series_now - timedelta_hours 30))
           []); reflexivity.
Defined.

(** The stations of [sample_db] have distinct identifiers: each has at most
    one feature.  The latest reading of station A is one of pm25; asked for
    no2, /stations still shows A, with the latest of its readings of no2. *)
Lemma stations_witness :
  exists features,
    snd (list_stations None (Some "no2") sample_env)
    = Ok (JObj [("type", JStr "FeatureCollection");
                ("features", JArr features)])
    /\ NoDup (map (fun f => property f "station_id") features)
    /\ exists f, In f features
                 /\ property f "station_id" = JStr "A"
                 /\ property f "pollutant" = JStr "no2"
                 /\ property f "value" = JNum 2
                 /\ property f "timestamp" = JStr "20".
Proof.
  destruct (stations_show_one_latest None (Some "no2") sample_env)
    as (features & E & Hnd & _ & Hcov).
  exists features. split; [exact E|]. split.
  { apply Hnd. repeat constructor; cbn; intuition discriminate. }
  destruct (Hcov (station "A" (Some 3) (Some 4)))
    as (f & Hf & m & Hm & Es & Hc & Pid & Pp & Pv & _ & Pt & _).
  { split; [cbn; auto|]. split; [reflexivity|].
    exists (reading "A" "no2" 2 20). cbn. auto 10. }
  exists f. split; [exact Hf|]. split; [exact Pid|].
  cbn in Hm.
  destruct Hm as [<-|[<-|[<-|[<-|[<-|[]]]]]]; cbn in Es, Hc;
    try discriminate Es; try discriminate Hc.
  repeat split; assumption.
Defined.

(** Station C has no latitude: it has no feature. *)
Lemma null_coordinates_witness :
  exists features,
    snd (list_stations None None sample_env)
    = Ok (JObj [("type", JStr "FeatureCollection");
                ("features", JArr features)])
    /\ ~ In (JStr "C") (map (fun f => property f "station_id") features).
Proof.
  destruct (proj1 (null_coordinates_are_excluded None None sample_env))
    as (features & E & _ & Hex).
  exists features. split; [exact E|].
  apply (Hex ltac:(repeat constructor; cbn; intuition discriminate)
             (station "C" None (Some 1))).
  - cbn. auto.
  - left. reflexivity.
Defined.

(** C9 as claimed fails on /stations: the same rows, no two readings with
    the same timestamp, and the features come in another order. *)
Lemma station_order_counterexample :
  measurements (store sample_env_stations_reversed)
  = measurements (store sample_env)
  /\ Permutation (stations (store sample_env))
       (stations (store sample_env_stations_reversed))
  /\ NoDup (map m_ts (measurements (store sample_env)))
  /\ (exists features features',
        snd (list_stations None None sample_env)
        = Ok (JObj [("type", JStr "FeatureCollection");
                    ("features", JArr features)])
        /\ snd (list_stations None None sample_env_stations_reversed)
           = Ok (JObj [("type", JStr "FeatureCollection");
                       ("features", JArr features')])
        /\ map (fun f => property f "station_id") features
           = [JStr "B"; JStr "A"]
        /\ map (fun f => property f "station_id") features'
           = [JStr "A"; JStr "B"])
  /\ snd (list_stations None None sample_env)
     <> snd (list_stations None None sample_env_stations_reversed).
Proof.
  split; [reflexivity|]. split; [apply Permutation_rev|]. split.
  { repeat constructor; cbn; intuition discriminate. }
  split.
  { do 2 eexists. repeat split; vm_compute; reflexivity. }
  vm_compute. discriminate.
Defined.

(** The readings of [sample_db] have distinct timestamps: the time series is
    the same whichever way the heap of [measurements] is ordered, and the
    features are the same, up to their order, whichever way the heap of
    [stations] is. *)
Lemma row_order_witness :
  measurements_timeseries "A" "pm25" 1 sample_env
  = measurements_timeseries "A" "pm25" 1 sample_env_reversed
  /\ exists features features',
       snd (list_stations None None sample_env)
       = Ok (JObj [("type", JStr "FeatureCollection");
                   ("features", JArr features)])
       /\ snd (list_stations None None sample_env_stations_reversed)
          = Ok (JObj [("type", JStr "FeatureCollection");
                      ("features", JArr features')])
       /\ Permutation features features'
       /\ exists objects objects' reordered,
            snd (list_stations_wkt None None sample_env) = Ok objects
            /\ snd (list_stations_wkt None None sample_env_stations_reversed)
               = Ok objects'
            /\ Permutation objects' reordered
            /\ Forall2 same_object objects reordered.
Proof.
  pose proof (responses_up_to_row_order sample_env
                sample_env_stations_reversed
                (Permutation_refl _) (Permutation_rev _))
    as (_ & _ & Hst & Hwkt).
  split.
  - apply (proj1 (proj2 (responses_up_to_row_order sample_env
                           sample_env_reversed (Permutation_rev _)
                           (Permutation_refl _)))).
    + reflexivity.
    + cbn. repeat constructor; cbn; intuition discriminate.
  - destruct (Hst None None) as (_ & features & features' & E & E' & P).
    { cbn. repeat constructor; cbn; intuition congruence. }
    exists features, features'. split; [exact E|]. split; [exact E'|].
    split; [exact P|].
    apply (Hwkt None None).
    + repeat constructor; cbn; intuition discriminate.
    + cbn. repeat constructor; cbn; intuition congruence.
Defined.

(** ** Further properties of the handlers, the routes and the configuration *)

(** *** Lists *)

Lemma firstn_add (A : Type) (n m : nat) (l : list A) :
  firstn (n + m) l = firstn n l ++ firstn m (skipn n l).
Proof.
  revert l. induction n as [|n IH]; intros [|x l]; cbn;
    try reflexivity.
  - now rewrite firstn_nil.
  - now rewrite IH.
Qed.

Section FilterSorted.
Variable A : Type.
Variable le : A -> A -> bool.
Hypothesis le_trans :
  forall a b c, le a b = true -> le b c = true -> le a c = true.

Lemma insert_sorted_first (x : A) (l : list A) :
  (forall z, In z l -> le x z = true) -> insert_sorted le x l = x :: l.
Proof.
  destruct l as [|y l]; cbn; [reflexivity|].
  intros H. now rewrite (H y) by auto.
Qed.

Lemma filter_insert_sorted (f : A -> bool) (x : A) (l : list A) :
  StronglySorted (fun a b => le a b = true) l ->
  filter f (insert_sorted le x l)
  = if f x then insert_sorted le x (filter f l) else filter f l.
Proof.
  induction 1 as [|y l Hs IH Hall]; cbn [insert_sorted filter].
  - now destruct (f x).
  - destruct (le x y) eqn:E.
    + cbn [filter]. destruct (f x); [|reflexivity].
      symmetry. apply insert_sorted_first.
      intros z Hz.
      assert (Hz' : In z (y :: l)).
      { destruct (f y); [destruct Hz as [<-|Hz]; [now left|]|];
          right; now apply filter_In in Hz. }
      destruct Hz' as [<-|Hz']; [assumption|].
      rewrite Forall_forall in Hall. apply le_trans with y; auto.
    + cbn [filter]. rewrite IH.
      destruct (f x), (f y); cbn [insert_sorted]; try rewrite E; reflexivity.
Qed.

Hypothesis le_total : forall a b, le a b = true \/ le b a = true.

(** Filtering the sorted rows is sorting the filtered rows. *)
Lemma filter_order_by (f : A -> bool) (l : list A) :
  filter f (order_by le l) = order_by le (filter f l).
Proof.
  induction l as [|x l IH]; cbn [order_by fold_right filter]; [reflexivity|].
  fold (order_by le l).
  rewrite filter_insert_sorted by now apply order_by_sorted.
  rewrite IH. now destruct (f x).
Qed.
End FilterSorted.

Lemma filter_filter (A : Type) (f g : A -> bool) (l : list A) :
  filter f (filter g l) = filter (fun x => g x && f x) l.
Proof.
  induction l as [|x l IH]; cbn; [reflexivity|].
  destruct (g x); cbn; rewrite IH; reflexivity.
Qed.

Section MoreProperties.

Context {RT : Runtime}.

(** *** Statements and parameters *)

(** X1: the text of the statement a handler executes depends only on which
    filters are supplied, never on a value of the request: the values travel
    in the parameters.  The text of the time series is always the same. *)
Theorem statement_text_ignores_values :
  (forall limit offset station_id country pollutant flag env
          limit' offset' station_id' country' pollutant' flag' env',
      truthy station_id = truthy station_id' ->
      truthy country = truthy country' ->
      truthy pollutant = truthy pollutant' ->
      map (fun call => text (fst call))
          (fst (list_measurements limit offset station_id country pollutant
                  flag env))
      = map (fun call => text (fst call))
            (fst (list_measurements limit' offset' station_id' country'
                    pollutant' flag' env')))
  /\ (forall station_id pollutant hours env station_id' pollutant' hours' env',
         map (fun call => text (fst call))
             (fst (measurements_timeseries station_id pollutant hours env))
         = map (fun call => text (fst call))
               (fst (measurements_timeseries station_id' pollutant' hours'
                       env')))
  /\ (forall country pollutant env country' pollutant' env',
         truthy country = truthy country' ->
         truthy pollutant = truthy pollutant' ->
         map (fun call => text (fst call))
             (fst (list_stations country pollutant env))
         = map (fun call => text (fst call))
               (fst (list_stations country' pollutant' env'))
         /\ map (fun call => text (fst call))
                (fst (list_stations_wkt country pollutant env))
            = map (fun call => text (fst call))
                  (fst (list_stations_wkt country' pollutant' env'))).
Proof.
  split; [|split].
  - intros limit offset station_id country pollutant flag env
      limit' offset' station_id' country' pollutant' flag' env' Es Ec Ep.
    unfold list_measurements, bind, execute, ret. cbv zeta.
    rewrite Es, Ec, Ep.
    do 2 destruct (run_plan _ _ _); reflexivity.
  - intros. unfold measurements_timeseries, bind, utcnow, execute, raise, ret.
    cbv zeta. cbn [plan run_plan].
    do 2 destruct (map select_series _); reflexivity.
  - intros country pollutant env country' pollutant' env' Ec Ep.
    unfold list_stations, list_stations_wkt, bind, execute, ret. cbv zeta.
    rewrite Ec, Ep. split; reflexivity.
Qed.

(** X2: every handler that reads the datastore executes exactly one
    statement, and the placeholders of its text are exactly the keys of the
    parameters it passes, in the same order: no placeholder is left unbound
    and no parameter is left unused. *)
Theorem placeholders_are_bound :
  (forall limit offset station_id country pollutant flag env,
      exists sql params,
        fst (list_measurements limit offset station_id country pollutant
               flag env) = [(sql, params)]
        /\ placeholders (text sql) = map fst params)
  /\ (forall station_id pollutant hours env,
         exists sql params,
           fst (measurements_timeseries station_id pollutant hours env)
           = [(sql, params)]
           /\ placeholders (text sql) = map fst params)
  /\ (forall country pollutant env,
         exists sql params,
           fst (list_stations country pollutant env) = [(sql, params)]
           /\ placeholders (text sql) = map fst params)
  /\ (forall country pollutant env,
         exists sql params,
           fst (list_stations_wkt country pollutant env) = [(sql, params)]
           /\ placeholders (text sql) = map fst params).
Proof.
  split; [|split; [|split]].
  - intros limit offset station_id country pollutant flag env.
    unfold list_measurements, bind, execute, ret. cbv zeta.
    do 2 eexists. split.
    + destruct (run_plan _ _ _); reflexivity.
    + cbn [text].
      destruct (truthy station_id), (truthy country), (truthy pollutant);
        vm_compute; reflexivity.
  - intros station_id pollutant hours env.
    unfold measurements_timeseries, bind, utcnow, execute, raise, ret.
    cbv zeta. cbn [plan run_plan].
    do 2 eexists. split.
    + destruct (map select_series _); reflexivity.
    + vm_compute. reflexivity.
  - intros country pollutant env.
    unfold list_stations, bind, execute, ret. cbv zeta.
    do 2 eexists. split; [reflexivity|]. cbn [text].
    destruct (truthy country), (truthy pollutant); vm_compute; reflexivity.
  - intros country pollutant env.
    unfold list_stations_wkt, bind, execute, ret. cbv zeta.
    do 2 eexists. split; [reflexivity|]. cbn [text].
    destruct (truthy country), (truthy pollutant); vm_compute; reflexivity.
Qed.

(** *** Pages *)

(** X3: on datastores holding the same rows, when the rows that pass the
    filters have pairwise distinct timestamps and the bounds are within
    [bigint_max], the page of [a] rows at [offset] followed by the page of
    [b] rows at [offset + a] is the page of [a + b] rows at [offset]:
    consecutive pages neither lose nor repeat a row, whatever order the rows
    are read in for each of the three statements. *)
Theorem consecutive_pages_compose :
  forall a b offset station_id country pollutant flag env env1 env2,
    0 <= a -> 0 <= b -> 0 <= offset ->
    offset + a <= bigint_max -> a + b <= bigint_max ->
    Permutation (measurements (store env)) (measurements (store env1)) ->
    Permutation (measurements (store env)) (measurements (store env2)) ->
    NoDup (map m_ts
             (filter (matches_filters station_id country pollutant)
                     (measurements (store env)))) ->
    exists first second,
      snd (list_measurements a offset station_id country pollutant flag env1)
      = Ok first
      /\ snd (list_measurements b (offset + a) station_id country pollutant
                flag env2) = Ok second
      /\ snd (list_measurements (a + b) offset station_id country pollutant
                flag env) = Ok (first ++ second).
Proof.
  intros a b offset station_id country pollutant flag env env1 env2
    Ha Hb Ho _ _ P1 P2 Hnd.
  rewrite !list_measurements_outcome.
  rewrite <- (order_by_ts_heap_order ts_desc
                (matches_filters station_id country pollutant)
                (measurements (store env)) (measurements (store env1))
                ts_desc_total ts_desc_trans ts_desc_key P1 Hnd).
  rewrite <- (order_by_ts_heap_order ts_desc
                (matches_filters station_id country pollutant)
                (measurements (store env)) (measurements (store env2))
                ts_desc_total ts_desc_trans ts_desc_key P2 Hnd).
  destruct (Z.leb_spec 0 a); [|lia]. destruct (Z.leb_spec 0 b); [|lia].
  destruct (Z.leb_spec 0 offset); [|lia].
  destruct (Z.leb_spec 0 (offset + a)); [|lia].
  destruct (Z.leb_spec 0 (a + b)); [|lia]. cbn [andb].
  do 2 eexists. split; [reflexivity|]. split; [reflexivity|].
  rewrite <- map_app. do 2 f_equal.
  rewrite !Z2Nat.inj_add by lia.
  rewrite firstn_add, skipn_skipn. do 3 f_equal. lia.
Qed.

(** X4: when [offset] is at least the number of rows that pass the filters
    (in particular when none does) and both bounds are within [bigint_max],
    [list_measurements] succeeds with the empty list; it has no not-found
    error. *)
Theorem page_past_the_end_is_empty :
  forall limit offset station_id country pollutant flag env,
    0 <= limit -> limit <= bigint_max ->
    0 <= offset -> offset <= bigint_max ->
    Z.of_nat
      (List.length
         (filter (matches_filters station_id country pollutant)
                 (measurements (store env)))) <= offset ->
    snd (list_measurements limit offset station_id country pollutant flag env)
    = Ok [].
Proof.
  intros limit offset station_id country pollutant flag env Hl _ Ho _ Hlen.
  rewrite list_measurements_outcome.
  destruct (Z.leb_spec 0 limit); [|lia]. destruct (Z.leb_spec 0 offset); [|lia].
  cbn [andb]. rewrite skipn_all2; [now rewrite firstn_nil|].
  rewrite <- (Permutation_length (order_by_perm _ ts_desc _)). lia.
Qed.

Lemma check_int_bounds (name : string) (q : Query.t) (raw : option Z) (v : Z) :
  check_int name q raw = inl v ->
  raw = None /\ v = Query.default q
  \/ raw = Some v
     /\ match Query.ge q with Some b => b <= v | None => True end
     /\ match Query.le q with Some b => v <= b | None => True end.
Proof.
  unfold check_int. destruct raw as [x|]; [|intros [= <-]; now left].
  destruct (Query.ge q) as [lo|]; destruct (Query.le q) as [hi|];
    repeat match goal with
    | |- context [Z.ltb ?a ?b] => destruct (Z.ltb_spec a b)
    end; intros [= <-]; right; repeat split; trivial; lia.
Qed.

Lemma check_int_errors (name : string) (q : Query.t) (raw : option Z) e :
  check_int name q raw = inr e -> e <> [].
Proof.
  unfold check_int. destruct raw as [x|]; [|discriminate].
  repeat match goal with
  | |- context [if ?c then _ else _] => destruct c
  end; intros [= <-]; discriminate.
Qed.

(** X5: with the datastore reachable, a request to /measurements whose
    offset, if given, is at most [bigint_max] ends in an answer or in a
    validation error that names at least one parameter and executes
    nothing.  A request to /measurements/timeseries ends in a non-empty
    answer, in the 404 of the source or in such a validation error. *)
Theorem routes_end_in_an_answer_or_a_client_error :
  (forall q env,
      (forall offset, q_offset q = Some offset -> offset <= bigint_max) ->
      (exists answer, snd (get_measurements q env) = Ok answer)
      \/ (exists errors,
            get_measurements q env = ([], RequestValidationError errors)
            /\ errors <> []))
  /\ (forall q env,
         (exists points,
             snd (get_measurements_timeseries q env) = Ok points
             /\ points <> [])
         \/ snd (get_measurements_timeseries q env)
            = HTTPException 404 "No measurements for given station/pollutant"
         \/ (exists errors,
               get_measurements_timeseries q env
               = ([], RequestValidationError errors)
               /\ errors <> [])).
Proof.
  split.
  - intros q env _. unfold get_measurements, reject.
    destruct (check_int "limit" limit_query (q_limit q)) as [l|el] eqn:El;
      destruct (check_int "offset" offset_query (q_offset q)) as [o|eo] eqn:Eo.
    + left. rewrite list_measurements_outcome.
      apply check_int_bounds in El, Eo. cbn in El, Eo.
      destruct (Z.leb_spec 0 l); [|lia]. destruct (Z.leb_spec 0 o); [|lia].
      cbn [andb]. eauto.
    + right. eexists. split; [reflexivity|]. cbn [errors_of app].
      now apply check_int_errors in Eo.
    + right. eexists. split; [reflexivity|]. cbn [errors_of].
      apply check_int_errors in El. rewrite app_nil_r. assumption.
    + right. eexists. split; [reflexivity|]. cbn [errors_of].
      apply check_int_errors in El. destruct el; [congruence|discriminate].
  - intros q env. unfold get_measurements_timeseries, check_required, reject.
    destruct (t_station_id q) as [s|]; destruct (t_pollutant q) as [p|];
      destruct (check_int "hours" hours_query (t_hours q)) as [h|eh] eqn:Eh;
      try (right; right; eexists; split; [reflexivity|]; cbn; discriminate).
    + rewrite timeseries_outcome.
      destruct (order_by _ _); [right; left; reflexivity|].
      left. eexists. split; [reflexivity|]. discriminate.
    + right; right. eexists. split; [reflexivity|]. cbn [errors_of app].
      now apply check_int_errors in Eh.
Qed.

(** X6: a request to /measurements/timeseries without station_id or without
    pollutant is rejected before any statement is executed, and the answer
    lists every failure together: each missing parameter, and hours when it
    is out of range. *)
Theorem missing_parameters_are_all_reported :
  forall q env,
    t_station_id q = None \/ t_pollutant q = None ->
    exists errors,
      get_measurements_timeseries q env = ([], RequestValidationError errors)
      /\ (t_station_id q = None ->
          In {| loc := ["query"; "station_id"]; type := "missing" |} errors)
      /\ (t_pollutant q = None ->
          In {| loc := ["query"; "pollutant"]; type := "missing" |} errors)
      /\ (forall v, t_hours q = Some v -> v < 1 \/ 168 < v ->
                    In ["query"; "hours"] (map loc errors)).
Proof.
  intros q env H.
  unfold get_measurements_timeseries, check_required, check_int, hours_query,
    reject.
  cbn [Query.ge Query.le Query.default].
  destruct (t_station_id q) as [s|]; destruct (t_pollutant q) as [p|];
    try (exfalso; destruct H; discriminate);
    (destruct (t_hours q) as [h|];
     [destruct (Z.ltb_spec h 1); [|destruct (Z.ltb_spec 168 h)]|]);
    cbn [errors_of app];
    (eexists; split; [reflexivity|]);
    repeat split; try discriminate; cbn; auto;
    intros v [= <-] Hv; try lia; auto.
Qed.

(** X7: an answer of /measurements has at most 500 elements, at most 100 when
    the request gives no limit, and at most the limit it gives. *)
Theorem measurements_answer_is_bounded :
  forall q env answer,
    snd (get_measurements q env) = Ok answer ->
    Z.of_nat (List.length answer) <= 500
    /\ (q_limit q = None -> Z.of_nat (List.length answer) <= 100)
    /\ (forall v, q_limit q = Some v -> Z.of_nat (List.length answer) <= v).
Proof.
  intros q env answer. unfold get_measurements, reject.
  destruct (check_int "limit" limit_query (q_limit q)) as [l|el] eqn:El;
    destruct (check_int "offset" offset_query (q_offset q)) as [o|eo] eqn:Eo;
    try discriminate.
  rewrite list_measurements_outcome.
  apply check_int_bounds in El, Eo. cbn in El, Eo.
  destruct (Z.leb_spec 0 l); [|lia]. destruct (Z.leb_spec 0 o); [|lia].
  cbn [andb]. intros [= <-]. rewrite length_map.
  match goal with
  | |- context [firstn ?n ?l] => pose proof (firstn_le_length n l) as B
  end.
  repeat split.
  - lia.
  - intros E. destruct El as [[_ ->]|[El _]]; [lia|congruence].
  - intros v E. destruct El as [[El _]|[El _]]; [congruence|].
    rewrite E in El. injection El as ->. lia.
Qed.

(** X8: every point of an answer of /measurements/timeseries has the station
    and pollutant of the request and is at most 168 hours old, at most 24
    hours when the request gives no hours. *)
Theorem timeseries_answer_is_recent :
  forall q env points,
    snd (get_measurements_timeseries q env) = Ok points ->
    Forall (fun p =>
              Some (TimePoint.station_id p) = t_station_id q
              /\ Some (TimePoint.pollutant p) = t_pollutant q
              /\ clock env - timedelta_hours 168 <= TimePoint.timestamp p
              /\ (t_hours q = None ->
                  clock env - timedelta_hours 24 <= TimePoint.timestamp p))
           points.
Proof.
  intros q env points. unfold get_measurements_timeseries, check_required, reject.
  destruct (t_station_id q) as [s|]; destruct (t_pollutant q) as [p|];
    destruct (check_int "hours" hours_query (t_hours q)) as [h|eh] eqn:Eh;
    try discriminate.
  rewrite timeseries_outcome.
  set (matching := filter _ _).
  assert (I : forall r, In r (order_by ts_asc matching) ->
                series_matches s p (clock env - timedelta_hours h) r = true).
  { intros r Hr. apply order_by_In in Hr. subst matching.
    apply filter_In in Hr. tauto. }
  destruct (order_by ts_asc matching) as [|r rows]; [discriminate|].
  intros [= <-].
  change (timepoint_of_row r :: map timepoint_of_row rows)
    with (map timepoint_of_row (r :: rows)).
  apply Forall_map, Forall_forall. intros x Hx. apply I in Hx.
  unfold series_matches in Hx.
  apply andb_prop in Hx as [Hx Ht]. apply andb_prop in Hx as [Hs Hp].
  apply String.eqb_eq in Hs, Hp. apply Z.leb_le in Ht.
  apply check_int_bounds in Eh. cbn in Eh. unfold timedelta_hours in *. cbn.
  repeat split; try congruence.
  - destruct Eh as [[_ ->]|[_ [_ Eh]]]; lia.
  - intros E. destruct Eh as [[_ ->]|[Eh _]]; [lia|congruence].
Qed.

(** *** More on the time series *)

(** X9: a successful time series holds every row of the station and
    pollutant in the window, each as often as the table has it. *)
Theorem timeseries_answers_every_matching_row :
  forall station_id pollutant hours env points,
    snd (measurements_timeseries station_id pollutant hours env) = Ok points ->
    Permutation
      (map timepoint_of_row
         (filter (series_matches station_id pollutant
                    (clock env - timedelta_hours hours))
                 (measurements (store env))))
      points.
Proof.
  intros station_id pollutant hours env points.
  rewrite timeseries_outcome.
  pose proof (order_by_perm _ ts_asc
                (filter (series_matches station_id pollutant
                           (clock env - timedelta_hours hours))
                        (measurements (store env)))) as P.
  destruct (order_by _ _) as [|r rows]; [discriminate|].
  intros [= <-].
  change (timepoint_of_row r :: map timepoint_of_row rows)
    with (map timepoint_of_row (r :: rows)).
  now apply Permutation_map.
Qed.

(** X10: for [1 <= hours <= hours' <= 168], on datastores holding the same
    rows at the same instant, when the rows of the wider window have
    pairwise distinct timestamps and the time series of [hours] succeeds, so
    does that of [hours'], and the narrower answer is the wider one without
    the points older than [now - hours]. *)
Theorem narrower_window_filters_the_wider_answer :
  forall station_id pollutant hours hours' env env' points,
    1 <= hours -> hours <= hours' -> hours' <= 168 ->
    clock env = clock env' ->
    Permutation (measurements (store env)) (measurements (store env')) ->
    NoDup (map m_ts
             (filter (series_matches station_id pollutant
                        (clock env - timedelta_hours hours'))
                     (measurements (store env)))) ->
    snd (measurements_timeseries station_id pollutant hours env) = Ok points ->
    exists points',
      snd (measurements_timeseries station_id pollutant hours' env')
      = Ok points'
      /\ points
         = filter (fun p => Z.leb (clock env - timedelta_hours hours)
                                  (TimePoint.timestamp p))
                  points'.
Proof.
  intros station_id pollutant hours hours' env env' points _ Hh _ Ec P Hnd.
  rewrite !timeseries_outcome. rewrite <- Ec.
  set (since := clock env - timedelta_hours hours).
  set (since' := clock env - timedelta_hours hours').
  set (rows := measurements (store env)).
  assert (Hts : forall a b, ts_asc a b = true -> ts_asc b a = true ->
                            m_ts a = m_ts b).
  { unfold ts_asc. intros a b. rewrite !Z.leb_le. lia. }
  rewrite <- (order_by_ts_heap_order ts_asc
                (series_matches station_id pollutant since')
                rows (measurements (store env'))
                ts_asc_total ts_asc_trans Hts P Hnd).
  assert (E : order_by ts_asc (filter (series_matches station_id pollutant since) rows)
              = filter (fun r => Z.leb since (m_ts r))
                  (order_by ts_asc
                     (filter (series_matches station_id pollutant since') rows))).
  { rewrite (filter_order_by _ ts_asc ts_asc_trans ts_asc_total).
    rewrite filter_filter. f_equal. apply filter_ext. intros r.
    unfold series_matches.
    destruct (m_station_id r =? station_id), (m_pollutant r =? pollutant);
      cbn; try reflexivity.
    subst since since'. unfold timedelta_hours.
    destruct (Z.leb_spec (clock env - hours * 3600000000) (m_ts r));
      destruct (Z.leb_spec (clock env - hours' * 3600000000) (m_ts r));
      try reflexivity; lia. }
  rewrite E.
  destruct (order_by ts_asc (filter (series_matches _ _ since') rows))
    as [|r' rows'] eqn:E'; [discriminate|].
  destruct (filter _ (r' :: rows')) as [|r0 rows0] eqn:F; [discriminate|].
  intros [= <-]. eexists. split; [reflexivity|].
  rewrite filter_map_swap. cbn [TimePoint.timestamp timepoint_of_row].
  now rewrite F.
Qed.
(** *** More on the station endpoints *)

(** The stations the join keeps, for a CTE that holds rows of the considered
    readings and one at least for every station that has some. *)
Lemma joined_stations (db : Database) (country pollutant : option string)
    (latest : list MeasurementRow) (s : StationRow) :
  (forall lm, In lm latest ->
              In lm (filter (considered pollutant) (measurements db))) ->
  (forall m, In m (filter (considered pollutant) (measurements db)) ->
             exists lm, In lm latest /\ m_station_id lm = m_station_id m) ->
  (exists lm, In (s, lm)
                 (filter (fun sl => station_passes country (fst sl))
                         (join_on (stations db) latest)))
  <-> eligible db country pollutant s.
Proof.
  intros Hsub Hcov. unfold eligible. split.
  - intros (lm & H). apply filter_In in H as [H Hp].
    apply join_on_In in H as (Hs & Hlm & E).
    apply Hsub, filter_In in Hlm as [Hlm Hc]. eauto 10.
  - intros (Hs & Hp & m & Hm & E & Hc).
    destruct (Hcov m) as (lm & Hlm & E'); [apply filter_In; auto|].
    exists lm. apply filter_In. split; [|assumption].
    apply join_on_In. repeat split; auto. congruence.
Qed.

Lemma station_passes_country (country : option string) (s : StationRow) :
  station_passes country s = true -> truthy country = true ->
  s_country s = country.
Proof.
  unfold station_passes, passes, truthy.
  destruct (s_lat s), (s_lon s); try discriminate.
  destruct country as [c|]; [|discriminate].
  destruct (c =? ""); [discriminate|].
  destruct (s_country s) as [c'|]; cbn; [|discriminate].
  intros E _. apply String.eqb_eq in E. now subst.
Qed.

Lemma considered_pollutant (pollutant : option string) (m : MeasurementRow) :
  considered pollutant m = true -> truthy pollutant = true ->
  Some (m_pollutant m) = pollutant.
Proof.
  unfold considered, passes, truthy.
  destruct pollutant as [p|]; [|discriminate].
  destruct (p =? ""); [discriminate|]. cbn.
  intros E _. apply String.eqb_eq in E. now subst.
Qed.

(** X11: with a country filter supplied, every feature of /stations and every
    object of /stations_wkt carries that country; with a pollutant filter
    supplied, every feature carries that pollutant and so does every entry
    of the measurements array of every object. *)
Theorem station_filters_show_in_the_answer :
  forall country pollutant env,
    (exists features,
        snd (list_stations country pollutant env)
        = Ok (JObj [("type", JStr "FeatureCollection");
                    ("features", JArr features)])
        /\ forall f, In f features ->
             (truthy country = true ->
              property f "country" = json_text country)
             /\ (truthy pollutant = true ->
                 property f "pollutant" = json_text pollutant))
    /\ (exists objects,
           snd (list_stations_wkt country pollutant env) = Ok objects
           /\ forall o, In o objects ->
                (truthy country = true ->
                 json_get o "country" = json_text country)
                /\ exists entries,
                     json_get o "measurements" = JArr entries
                     /\ (truthy pollutant = true ->
                         forall e, In e entries ->
                           json_get e "pollutant" = json_text pollutant)).
Proof.
  intros country pollutant env. split.
  - rewrite list_stations_outcome. eexists. split; [reflexivity|].
    intros f Hf. apply in_map_iff in Hf as ([s lm] & <- & Hf).
    apply filter_In in Hf as [Hf Hp]. cbn [fst] in Hp.
    apply join_on_In in Hf as (_ & Hlm & _).
    apply latest_per_station_id_In, filter_In in Hlm as [_ Hc].
    split; intros Ht.
    + unfold property. cbn. now rewrite (station_passes_country _ _ Hp Ht).
    + unfold property. cbn. now rewrite <- (considered_pollutant _ _ Hc Ht).
  - rewrite list_stations_wkt_outcome. eexists. split; [reflexivity|].
    intros o Ho. apply in_flat_map in Ho as ([s lms] & Hg & Ho).
    unfold wkt_object_of in Ho.
    destruct (s_lon s) as [lon|] eqn:Hlon; [|contradiction].
    destruct (s_lat s) as [lat|] eqn:Hlat; [|contradiction].
    destruct Ho as [<-|[]].
    unfold group_by in Hg. apply in_map_iff in Hg as (k & [= -> <-] & Hk).
    apply distinct_on_In in Hk. apply in_map_iff in Hk as ([s' lm0] & E & Hk).
    cbn in E. subst s'. apply filter_In in Hk as [_ Hp]. cbn [fst] in Hp.
    split.
    + intros Ht. cbn. now rewrite (station_passes_country _ _ Hp Ht).
    + eexists. split; [reflexivity|]. intros Ht e He.
      apply in_map_iff in He as (lm & <- & He).
      apply in_map_iff in He as ([s' lm'] & E & He). cbn in E. subst lm'.
      apply filter_In in He as [He _]. apply filter_In in He as [He _].
      apply join_on_In in He as (_ & Hlm & _).
      apply latest_per_station_pollutant_In, filter_In in Hlm as [_ Hc].
      cbn. now rewrite <- (considered_pollutant _ _ Hc Ht).
Qed.

(** X12: /stations has a feature for a station identifier exactly when a
    station with that identifier has both coordinates, passes the country
    filter and has a considered reading: a station without readings is
    absent, one with readings is never dropped. *)
Theorem stations_shown :
  forall country pollutant env,
    exists features,
      snd (list_stations country pollutant env)
      = Ok (JObj [("type", JStr "FeatureCollection");
                  ("features", JArr features)])
      /\ forall id,
           In (JStr id) (map (fun f => property f "station_id") features)
           <-> exists s, eligible (store env) country pollutant s
                         /\ s_station_id s = id.
Proof.
  intros country pollutant env.
  rewrite list_stations_outcome. eexists. split; [reflexivity|].
  intros id. rewrite map_map.
  pose proof (fun s => joined_stations (store env) country pollutant
                (latest_per_station_id
                   (filter (considered pollutant) (measurements (store env))))
                s (latest_per_station_id_In _)
                (latest_per_station_id_covers _)) as J.
  split.
  - intros H. apply in_map_iff in H as ([s lm] & E & H).
    injection E as <-. exists s. split; [|reflexivity]. apply J. eauto.
  - intros (s & Hs & <-). apply J in Hs as (lm & Hlm).
    apply in_map_iff. exists (s, lm). split; [reflexivity|assumption].
Qed.

Lemma wkt_group_of_station (db : Database) (country pollutant : option string)
    (s : StationRow) :
  let joined :=
    filter (fun sl => station_passes country (fst sl))
      (join_on (stations db)
         (latest_per_station_pollutant
            (filter (considered pollutant) (measurements db)))) in
  (exists lms, In (s, lms) (group_by same_group joined))
  <-> eligible db country pollutant s.
Proof.
  intros joined.
  rewrite <- (joined_stations db country pollutant
                (latest_per_station_pollutant
                   (filter (considered pollutant) (measurements db))) s).
  - fold joined. unfold group_by. split.
    + intros (lms & H). apply in_map_iff in H as (k & [= -> _] & Hk).
      apply distinct_on_In, in_map_iff in Hk as ([s' lm] & E & Hk).
      cbn in E. subst s'. eauto.
    + intros (lm & H).
      destruct (distinct_on_covers _ same_group
                  (fun a => proj2 (same_group_spec a a) eq_refl)
                  (fun a b c Hab Hbc =>
                     proj2 (same_group_spec a c)
                       (eq_trans (proj1 (same_group_spec a b) Hab)
                                 (proj1 (same_group_spec b c) Hbc)))
                  (map fst joined) s) as (k & Hk & E).
      { apply in_map_iff. exists (s, lm). auto. }
      apply same_group_spec in E. subst k.
      eexists. apply in_map_iff. exists s. split; [reflexivity|assumption].
  - apply latest_per_station_pollutant_In.
  - intros m Hm.
    destruct (latest_per_station_pollutant_covers _ m Hm) as (lm & ? & ? & _).
    eauto.
Qed.

Lemma wkt_object_station (g : StationRow * list MeasurementRow) (o : Json) :
  In o (wkt_object_of g) -> json_get o "station_id" = JStr (s_station_id (fst g)).
Proof.
  destruct g as [s lms]. unfold wkt_object_of.
  destruct (s_lon s), (s_lat s); try contradiction.
  now intros [<-|[]].
Qed.

Lemma wkt_object_exists (country : option string)
    (g : StationRow * list MeasurementRow) :
  station_passes country (fst g) = true -> exists o, wkt_object_of g = [o].
Proof.
  destruct g as [s lms]. unfold station_passes, wkt_object_of. cbn [fst].
  destruct (s_lat s), (s_lon s); try discriminate. eauto.
Qed.

(** X13: /stations_wkt has an object for a station identifier exactly when a
    station with that identifier has both coordinates, passes the country
    filter and has a considered reading. *)
Theorem stations_wkt_shown :
  forall country pollutant env,
    exists objects,
      snd (list_stations_wkt country pollutant env) = Ok objects
      /\ forall id,
           In (JStr id) (map (fun o => json_get o "station_id") objects)
           <-> exists s, eligible (store env) country pollutant s
                         /\ s_station_id s = id.
Proof.
  intros country pollutant env.
  rewrite list_stations_wkt_outcome. eexists. split; [reflexivity|].
  intros id. pose proof (wkt_group_of_station (store env) country pollutant) as G.
  cbv zeta in G. split.
  - intros H. apply in_map_iff in H as (o & E & H).
    apply in_flat_map in H as ([s lms] & Hg & Ho).
    apply wkt_object_station in Ho. rewrite Ho in E. injection E as <-.
    exists s. split; [|reflexivity]. apply G. eauto.
  - intros (s & Hs & <-). pose proof Hs as (_ & Hp & _).
    apply G in Hs as (lms & Hg).
    destruct (wkt_object_exists country (s, lms) Hp) as (o & Ho).
    apply in_map_iff. exists o. split.
    + apply (wkt_object_station (s, lms)). rewrite Ho. now left.
    + apply in_flat_map. exists (s, lms). split; [assumption|].
      rewrite Ho. now left.
Qed.

(** X14: for the same parameters and datastore, /stations and /stations_wkt
    show the same station identifiers. *)
Theorem both_endpoints_show_the_same_stations :
  forall country pollutant env,
    exists features objects,
      snd (list_stations country pollutant env)
      = Ok (JObj [("type", JStr "FeatureCollection");
                  ("features", JArr features)])
      /\ snd (list_stations_wkt country pollutant env) = Ok objects
      /\ forall id,
           In (JStr id) (map (fun f => property f "station_id") features)
           <-> In (JStr id) (map (fun o => json_get o "station_id") objects).
Proof.
  intros country pollutant env.
  rewrite list_stations_outcome, list_stations_wkt_outcome.
  do 2 eexists. split; [reflexivity|]. split; [reflexivity|].
  intros id. rewrite map_map.
  pose proof (fun s => joined_stations (store env) country pollutant
                (latest_per_station_id
                   (filter (considered pollutant) (measurements (store env))))
                s (latest_per_station_id_In _)
                (latest_per_station_id_covers _)) as J.
  pose proof (wkt_group_of_station (store env) country pollutant) as G.
  cbv zeta in G. split.
  - intros H. apply in_map_iff in H as ([s lm] & E & H). injection E as <-.
    assert (Hs : eligible (store env) country pollutant s) by (apply J; eauto).
    pose proof Hs as (_ & Hp & _). apply G in Hs as (lms & Hg).
    destruct (wkt_object_exists country (s, lms) Hp) as (o & Ho).
    apply in_map_iff. exists o. split.
    + apply (wkt_object_station (s, lms)). rewrite Ho. now left.
    + apply in_flat_map. exists (s, lms). split; [assumption|].
      rewrite Ho. now left.
  - intros H. apply in_map_iff in H as (o & E & H).
    apply in_flat_map in H as ([s lms] & Hg & Ho).
    apply wkt_object_station in Ho. rewrite Ho in E. injection E as <-.
    assert (Hs : eligible (store env) country pollutant s) by (apply G; eauto).
    apply J in Hs as (lm & Hlm).
    apply in_map_iff. exists (s, lm). split; [reflexivity|assumption].
Qed.

(** X15: [list_stations_wkt] answers one object for every row its statement
    returns: the [continue] on a missing coordinate never skips a row,
    because the WHERE clause has already removed such stations. *)
Theorem wkt_skip_never_fires :
  forall country pollutant env,
    exists sql params (rows : list (Row (plan sql))) objects,
      fst (list_stations_wkt country pollutant env) = [(sql, params)]
      /\ run_plan (store env) params (plan sql) = Some rows
      /\ snd (list_stations_wkt country pollutant env) = Ok objects
      /\ List.length objects = List.length rows.
Proof.
  intros country pollutant env.
  pose proof (list_stations_wkt_outcome country pollutant env) as O.
  unfold list_stations_wkt, bind, execute, ret in *. cbv zeta in *.
  cbn [plan run_plan fst snd app] in *.
  do 4 eexists. split; [reflexivity|]. split; [reflexivity|].
  split; [exact O|].
  rewrite length_map.
  unfold join_latest, from_measurements.
  rewrite (filter_ext _ _ (measurements_where country pollutant)).
  rewrite (filter_ext _ _ (fun sl => stations_where country pollutant (fst sl))).
  set (G := group_by _ _).
  assert (HG : forall g, In g G -> station_passes country (fst g) = true).
  { intros [s lms] Hg. subst G. unfold group_by in Hg.
    apply in_map_iff in Hg as (k & [= -> _] & Hk).
    apply distinct_on_In, in_map_iff in Hk as ([s' lm] & E & Hk).
    cbn in E. subst s'. now apply filter_In in Hk as [_ Hk]. }
  clearbody G. induction G as [|g G IH]; [reflexivity|].
  cbn [flat_map]. rewrite length_app, IH by (intros; apply HG; now right).
  destruct (wkt_object_exists country g) as (o & ->); [apply HG; now left|].
  reflexivity.
Qed.

End MoreProperties.

(** *** Configuration *)

Lemma lstrip_suffix (s : Py.str) :
  exists blanks, s = blanks ++ Py.lstrip s
                 /\ Forall (fun c => Py.isspace c = true) blanks.
Proof.
  induction s as [|c s (blanks & E & H)]; cbn.
  - exists []. split; [reflexivity|constructor].
  - destruct (Py.isspace c) eqn:Ec.
    + exists (c :: blanks). split; [cbn; now rewrite <- E|now constructor].
    + exists []. split; [reflexivity|constructor].
Qed.

Lemma lstrip_head (s : Py.str) (c : N) (t : Py.str) :
  Py.lstrip s = c :: t -> Py.isspace c = false.
Proof.
  induction s as [|x s IH]; cbn; [discriminate|].
  destruct (Py.isspace x) eqn:E; [assumption|]. now intros [= <- _].
Qed.

Lemma lstrip_nil (s : Py.str) :
  Py.lstrip s = [] <-> Forall (fun c => Py.isspace c = true) s.
Proof.
  induction s as [|x s IH]; cbn.
  - split; [constructor|reflexivity].
  - destruct (Py.isspace x) eqn:E.
    + rewrite IH. split; [now constructor|now inversion 1].
    + split; [discriminate|]. inversion 1; congruence.
Qed.

Lemma lstrip_In (s : Py.str) (c : N) : In c (Py.lstrip s) -> In c s.
Proof.
  destruct (lstrip_suffix s) as (blanks & E & _). intros H.
  rewrite E. apply in_or_app. now right.
Qed.

Lemma strip_In (s : Py.str) (c : N) : In c (Py.strip s) -> In c s.
Proof.
  unfold Py.strip, Py.rstrip. intros H.
  apply in_rev, lstrip_In in H. apply in_rev in H. now apply lstrip_In.
Qed.

Lemma strip_nil (s : Py.str) :
  Py.strip s = [] <-> Forall (fun c => Py.isspace c = true) s.
Proof.
  unfold Py.strip, Py.rstrip. rewrite <- lstrip_nil.
  destruct (Py.lstrip s) as [|c t] eqn:E; [tauto|]. split; [|discriminate].
  intros H. exfalso.
  apply (f_equal (@rev N)) in H. rewrite rev_involutive in H. cbn in H.
  apply lstrip_nil in H. rewrite Forall_forall in H.
  apply lstrip_head in E. rewrite (H c) in E; [discriminate|].
  apply (proj1 (in_rev (c :: t) c)). now left.
Qed.

Lemma strip_ends (s : Py.str) :
  Py.strip s <> [] ->
  Py.isspace (hd 0%N (Py.strip s)) = false
  /\ Py.isspace (last (Py.strip s) 0%N) = false.
Proof.
  unfold Py.strip, Py.rstrip. intros Hne.
  destruct (Py.lstrip s) as [|c t] eqn:E; [now contradiction Hne|].
  pose proof (lstrip_head _ _ _ E) as Hc.
  destruct (lstrip_suffix (rev (c :: t))) as (blanks & E' & _).
  destruct (Py.lstrip (rev (c :: t))) as [|d u] eqn:E''; [now contradiction Hne|].
  pose proof (lstrip_head _ _ _ E'') as Hd.
  split.
  - apply (f_equal (@rev N)) in E'.
    rewrite rev_involutive, rev_app_distr in E'.
    destruct (rev (d :: u)) as [|x xs]; [now contradiction Hne|].
    cbn in E' |- *. now injection E' as <-.
  - cbn [rev]. now rewrite last_last.
Qed.

Lemma split_pieces (P : N -> Prop) (sep : N) (s : Py.str) :
  (forall piece, In piece (Py.split sep s) -> Forall P piece)
  <-> Forall (fun c => c = sep \/ P c) s.
Proof.
  induction s as [|c s IH]; cbn.
  - split; [constructor|]. intros _ piece [<-|[]]. constructor.
  - destruct (N.eqb_spec c sep) as [->|Hc].
    + split.
      * intros H. constructor; [now left|]. apply IH. intros p Hp. apply H. now right.
      * intros H piece [<-|Hp]; [constructor|].
        inversion H; subst. now apply IH.
    + destruct (Py.split sep s) as [|p ps] eqn:E.
      * split.
        -- intros H. specialize (H [c] (or_introl eq_refl)).
           inversion H; subst. constructor; [now right|].
           apply IH. intros ? [].
        -- intros H piece [<-|[]]. inversion H as [|? ? [?|Hp] _]; subst;
             [contradiction|]. now repeat constructor.
      * split.
        -- intros H. pose proof (H _ (or_introl eq_refl)) as Hcp.
           inversion Hcp; subst. constructor; [now right|].
           apply IH. intros q [<-|Hq]; [assumption|]. apply H. now right.
        -- intros H piece Hp. inversion H as [|? ? [?|Hc'] Hs]; subst;
             [contradiction|].
           pose proof (proj2 IH Hs) as Hall.
           destruct Hp as [<-|Hp].
           ++ constructor; [assumption|]. apply Hall. now left.
           ++ apply Hall. now right.
Qed.

Lemma split_no_separator (sep : N) (s : Py.str) (piece : Py.str) :
  In piece (Py.split sep s) -> ~ In sep piece.
Proof.
  revert piece. induction s as [|c s IH]; cbn; intros piece.
  - intros [<-|[]] [].
  - destruct (N.eqb_spec c sep) as [->|Hc].
    + intros [<-|Hp]; [intros []|now apply IH].
    + destruct (Py.split sep s) as [|p ps].
      * intros [<-|[]] [E|[]]. congruence.
      * intros [<-|Hp].
        -- intros [E|Hin]; [congruence|]. apply (IH p); [now left|assumption].
        -- apply IH. now right.
Qed.

(** X16: an origin handed to the CORS middleware is never empty, holds no
    comma and neither starts nor ends with white space, whatever the
    environment holds. *)
Theorem allowed_origins_are_clean :
  forall environ origin,
    In origin (allow_origins (Config.allowed_origins environ)) ->
    origin <> []
    /\ ~ In 44%N origin
    /\ Py.isspace (hd 0%N origin) = false
    /\ Py.isspace (last origin 0%N) = false.
Proof.
  intros environ origin H. unfold allow_origins in H.
  apply in_map_iff in H as (piece & <- & H).
  apply filter_In in H as [H Hne].
  assert (Hne' : Py.strip piece <> []) by (destruct (Py.strip piece); easy).
  split; [assumption|]. split.
  - intros Hin. apply strip_In in Hin.
    now apply (split_no_separator _ _ _ H).
  - now apply strip_ends.
Qed.

(** X17: the CORS middleware is handed no origin at all exactly when the
    setting holds nothing but commas and white space (the empty string
    included); when ALLOWED_ORIGINS is not set, it is handed the one origin
    [*]. *)
Theorem no_origin_is_allowed :
  forall environ,
    (allow_origins (Config.allowed_origins environ) = []
     <-> Forall (fun c => c = 44%N \/ Py.isspace c = true)
                (Py.getenv environ (Py.lit "ALLOWED_ORIGINS") (Py.lit "*")))
    /\ (Py.lookup (Py.lit "ALLOWED_ORIGINS") environ = None ->
        allow_origins (Config.allowed_origins environ) = [Py.lit "*"]).
Proof.
  intros environ. split.
  - unfold Config.allowed_origins.
    rewrite <- (split_pieces (fun c => Py.isspace c = true)).
    unfold allow_origins. split.
    + intros H piece Hp. apply strip_nil.
      destruct (Py.strip piece) as [|c t] eqn:E; [reflexivity|].
      assert (Hin : In piece
                (filter (fun o => match Py.strip o with [] => false | _ => true end)
                        (Py.split 44
                           (Py.getenv environ (Py.lit "ALLOWED_ORIGINS")
                              (Py.lit "*"))))).
      { apply filter_In. split; [assumption|]. now rewrite E. }
      apply map_eq_nil in H. rewrite H in Hin. contradiction.
    + intros H.
      match goal with |- map _ ?l = [] => assert (E : l = []) end.
      { destruct (filter _ _) as [|p ps] eqn:E; [reflexivity|].
        assert (Hp : In p (p :: ps)) by now left.
        rewrite <- E in Hp. apply filter_In in Hp as [Hp Hne].
        rewrite (proj2 (strip_nil p) (H p Hp)) in Hne. discriminate. }
      now rewrite E.
  - intros Hno. unfold Config.allowed_origins, Py.getenv. rewrite Hno.
    reflexivity.
Qed.

(** ** The further properties at work *)

Lemma statement_text_witness :
  map (fun call => text (fst call))
      (fst (list_measurements 10 0 (Some "A") None None false sample_env))
  = map (fun call => text (fst call))
        (fst (list_measurements 20 5 (Some "B") None (Some "") true
                sample_env)).
Proof.
  apply (proj1 statement_text_ignores_values); reflexivity.
Defined.

Lemma consecutive_pages_witness :
  exists first second,
    snd (list_measurements 2 1 None None None false sample_env_reversed)
    = Ok first
    /\ snd (list_measurements 2 (1 + 2) None None None false sample_env)
       = Ok second
    /\ snd (list_measurements (2 + 2) 1 None None None false sample_env)
       = Ok (first ++ second).
Proof.
  apply (consecutive_pages_compose 2 2 1 None None None false sample_env
           sample_env_reversed sample_env);
    try (unfold bigint_max; lia).
  - apply Permutation_rev.
  - apply Permutation_refl.
  - cbn. repeat constructor; cbn; intuition discriminate.
Defined.

Lemma page_past_the_end_witness :
  snd (list_measurements 5 3 (Some "A") None None false sample_env) = Ok [].
Proof.
  apply (page_past_the_end_is_empty 5 3 (Some "A") None None false sample_env);
    try (unfold bigint_max; lia).
  vm_compute. discriminate.
Defined.

Lemma routes_witness :
  (exists answer, snd (get_measurements sample_page sample_env) = Ok answer)
  \/ (exists errors,
        get_measurements sample_page sample_env
        = ([], RequestValidationError errors)
        /\ errors <> []).
Proof.
  apply (proj1 routes_end_in_an_answer_or_a_client_error sample_page
           sample_env).
  intros offset [= <-]. unfold bigint_max. lia.
Defined.

Lemma missing_parameters_witness :
  exists errors,
    get_measurements_timeseries sample_incomplete sample_env
    = ([], RequestValidationError errors)
    /\ In {| loc := ["query"; "station_id"]; type := "missing" |} errors
    /\ In ["query"; "hours"] (map loc errors).
Proof.
  destruct (missing_parameters_are_all_reported sample_incomplete sample_env
              (or_introl eq_refl)) as (errors & E & Hs & _ & Hh).
  exists errors. split; [exact E|]. split; [now apply Hs|].
  apply (Hh 500); [reflexivity|lia].
Defined.

Lemma bounded_answer_witness :
  exists answer,
    snd (get_measurements sample_page sample_env) = Ok answer
    /\ Z.of_nat (List.length answer) <= 100.
Proof.
  eexists. split; [vm_compute; reflexivity|].
  refine (proj1 (proj2 (measurements_answer_is_bounded sample_page sample_env
                          _ _)) eq_refl).
  vm_compute. reflexivity.
Defined.

Lemma recent_answer_witness :
  exists points,
    snd (get_measurements_timeseries sample_series series_env) = Ok points
    /\ Forall (fun p => clock series_env - timedelta_hours 168
                        <= TimePoint.timestamp p) points.
Proof.
  eexists. split; [vm_compute; reflexivity|].
  eapply Forall_impl;
    [|apply (timeseries_answer_is_recent sample_series series_env);
      vm_compute; reflexivity].
  intros p H. apply H.
Defined.

Lemma every_matching_row_witness :
  Permutation
    (map timepoint_of_row
       (filter (series_matches "NL01491" "pm25"
                  (clock series_env - timedelta_hours 24))
               (measurements (store series_env))))
    [timepoint_of_row
       (reading "NL01491" "pm25" 12 (series_now - timedelta_hours 5));
     timepoint_of_row
       (reading "NL01491" "pm25" 11 (series_now - timedelta_hours 1))].
Proof.
  apply (timeseries_answers_every_matching_row "NL01491" "pm25" 24 series_env).
  vm_compute. reflexivity.
Defined.

Lemma narrower_window_witness :
  exists points',
    snd (measurements_timeseries "NL01491" "pm25" 24 series_env) = Ok points'
    /\ [timepoint_of_row
          (reading "NL01491" "pm25" 11 (series_now - timedelta_hours 1))]
       = filter (fun p => Z.leb (clock series_env - timedelta_hours 2)
                                (TimePoint.timestamp p))
                points'.
Proof.
  apply (narrower_window_filters_the_wider_answer "NL01491" "pm25" 2 24
           series_env series_env);
    [lia|lia|lia|reflexivity|apply Permutation_refl| |vm_compute; reflexivity].
  vm_compute. repeat constructor; cbn; intuition discriminate.
Defined.

Lemma station_filters_witness :
  exists features,
    snd (list_stations (Some "NL") (Some "pm25") sample_env)
    = Ok (JObj [("type", JStr "FeatureCollection");
                ("features", JArr features)])
    /\ forall f, In f features ->
         property f "country" = JStr "NL"
         /\ property f "pollutant" = JStr "pm25".
Proof.
  destruct (proj1 (station_filters_show_in_the_answer (Some "NL") (Some "pm25")
                     sample_env)) as (features & E & H).
  exists features. split; [exact E|].
  intros f Hf. destruct (H f Hf) as [Hc Hp].
  split; [now apply Hc|now apply Hp].
Defined.

Lemma clean_origin_witness :
  Py.lit "http://a.b" <> []
  /\ ~ In 44%N (Py.lit "http://a.b")
  /\ Py.isspace (hd 0%N (Py.lit "http://a.b")) = false
  /\ Py.isspace (last (Py.lit "http://a.b") 0%N) = false.
Proof.
  apply (allowed_origins_are_clean sample_environ).
  vm_compute. auto.
Defined.

Lemma default_origin_witness :
  allow_origins (Config.allowed_origins [(Py.lit "POSTGRES_HOST", Py.lit "db")])
  = [Py.lit "*"].
Proof.
  apply (proj2 (no_origin_is_allowed [(Py.lit "POSTGRES_HOST", Py.lit "db")])).
  reflexivity.
Defined.
